(** * openai-imagegen: the rate limiter and the reference-image pipeline

    A shallow embedding of
    - [src/middleware/rate_limiter.py] ([RateLimiterMiddleware.dispatch]) and
    - [src/services/openai_service.py] ([OpenAIImageService]),
    followed by the properties of the specification that concern them.

    Conventions of the embedding.
    - [time.time()] readings are exact rationals ([Q], in seconds); the
      rounding of binary floating point is not modelled.
    - A Python [dict] keyed by strings is a [gmap string _]; the
      [defaultdict(deque)] of the limiter is read with a default of [[]]
      and, as in Python, reading a key creates its entry.
    - A [deque] is a [list] with its left end at the head.
    - Python exceptions are values: a raising function returns [Raise e]. *)

From Stdlib Require Import QArith Qround Lqa ZArith Lia.
From stdpp Require Import gmap strings list fin_maps pretty.

Local Open Scope Z_scope.

(** ** src/middleware/rate_limiter.py *)

Module RateLimiter.

(** The two attributes of a starlette [Request] that [dispatch] reads:
    [request.url.path] and [request.client.host]. *)
Record Request := { url_path : string; client_host : string }.

(** What [dispatch] hands back: the downstream response
    ([await call_next(request)]), the 429 [JSONResponse] with the three
    entries of its [content], or the [IndexError] of [deque[0]] on an empty
    deque. *)
Inductive Response :=
| CallNext
| JSONResponse (status_code : Z) (error message : string) (retry_after : Z)
| IndexError.

(** [self.requests : Dict[str, deque]]. *)
Abbreviation Requests := (gmap string (list Q)).

(** [self.window = 60  # 60 seconds] *)
Definition window : Q := 60%Q.

(** [x < y] on timestamps, as a boolean. *)
Definition Qltb (x y : Q) : bool := negb (Qle_bool y x).

(** Python's [int(x)] on a float: truncation toward zero. *)
Definition int (x : Q) : Z := Z.quot (Qnum x) (Z.pos (Qden x)).

(** [while d and d[0] < cutoff: d.popleft()] *)
Fixpoint prune (cutoff : Q) (d : list Q) : list Q :=
  match d with
  | [] => []
  | x :: d' => if Qltb x cutoff then prune cutoff d' else d
  end.

(** [f"Maximum {self.limit} requests per minute allowed"] *)
Definition limit_message (limit : Z) : string :=
  "Maximum " +:+ pretty limit +:+ " requests per minute allowed".

Section Dispatch.

(** [self.limit = settings.RATE_LIMIT_PER_MINUTE], an [int] read from the
    environment. *)
Variable limit : Z.

(** [RateLimiterMiddleware.dispatch], with the reading of [time.time()]
    passed in as [current_time]. The result is the response and the
    contents of [self.requests] afterwards. *)
Definition dispatch (requests : Requests) (request : Request) (current_time : Q)
  : Response * Requests :=
  if String.eqb (url_path request) "/health" then (CallNext, requests)
  else
    let client_ip := client_host request in
    let d := prune (current_time - window)%Q (requests !!! client_ip) in
    let requests1 := <[client_ip := d]> requests in
    if limit <=? Z.of_nat (length d) then
      match d with
      | [] => (IndexError, requests1)
      | oldest :: _ =>
          (JSONResponse 429 "Rate limit exceeded" (limit_message limit)
             (int (window - (current_time - oldest))%Q),
           requests1)
      end
    else (CallNext, <[client_ip := d ++ [current_time]]> requests1).

(** A sequence of requests, each with the clock reading taken when it is
    dispatched, served one after the other. *)
Fixpoint run (requests : Requests) (trace : list (Request * Q))
  : list Response * Requests :=
  match trace with
  | [] => ([], requests)
  | (request, t) :: trace' =>
      let '(response, requests1) := dispatch requests request t in
      let '(responses, requests2) := run requests1 trace' in
      (response :: responses, requests2)
  end.

End Dispatch.

(** The clock never runs backwards along a list of readings. *)
Fixpoint nondecreasing (ts : list Q) : Prop :=
  match ts with
  | [] => True
  | t :: ts' =>
      match ts' with
      | [] => True
      | t' :: _ => (t <= t')%Q /\ nondecreasing ts'
      end
  end.

(** [retry_after] of a 429 response. *)
Definition retry_after_of (r : Response) : option Z :=
  match r with
  | JSONResponse _ _ _ ra => Some ra
  | _ => None
  end.

Definition status_of (r : Response) : option Z :=
  match r with
  | JSONResponse s _ _ _ => Some s
  | _ => None
  end.

(** Every record is in arrival order and holds no reading later than [T]. *)
Definition ordered (T : Q) (requests : Requests) : Prop :=
  forall k, nondecreasing (requests !!! k) /\
            Forall (fun y => (y <= T)%Q) (requests !!! k).

(** A request to the generation endpoint, for the examples. *)
Definition a_request : Request :=
  {| url_path := "/api/v1/images/generate"; client_host := "203.0.113.7" |}.

End RateLimiter.

(** ** Exceptions and the state of the process *)

(** A computation that may raise: [Raise e] carries [str(e)], the only part
    of an exception the service ever looks at. *)
Inductive Exc (A : Type) :=
| Ok (a : A)
| Raise (e : string).
Arguments Ok {A} a.
Arguments Raise {A} e.

Definition bytes := list Byte.byte.

(** What the service touches outside its own variables: the files of the
    output directory, by path, and the number of times the clock has been
    read ([datetime.now()]). Writing to and removing from the output
    directory succeed in the gateway as [Service] embeds it; [Disk] embeds
    the reference-guided call with file operations that can fail. *)
Record Sys := { files : gmap string bytes; clock : nat }.

(** State and exceptions, threaded through the service. *)
Definition M (A : Type) : Type := Sys -> Exc A * Sys.

Definition ret {A} (a : A) : M A := fun s => (Ok a, s).
Definition raise {A} (e : string) : M A := fun s => (Raise e, s).
Definition bind {A B} (m : M A) (k : A -> M B) : M B :=
  fun s => match m s with
           | (Ok a, s') => k a s'
           | (Raise e, s') => (Raise e, s')
           end.
Definition lift {A} (x : Exc A) : M A := fun s => (x, s).

Notation "'do' x <- m ; k" := (bind m (fun x => k))
  (at level 10, x name, m at level 100, k at level 200,
   format "'[v' 'do'  x  <-  m ; '/' k ']'").
Notation "'do_' m ; k" := (bind m (fun _ => k))
  (at level 10, m at level 100, k at level 200,
   format "'[v' 'do_'  m ; '/' k ']'").

(** [try: body  except Exception as e: return handler(e)] *)
Definition try_except {A} (body : M A) (handler : string -> A) : Sys -> A * Sys :=
  fun s => match body s with
           | (Ok a, s') => (a, s')
           | (Raise e, s') => (handler e, s')
           end.

(** [try: body  finally: cleanup], for a cleanup that cannot raise. *)
Definition try_finally {A} (body : M A) (cleanup : Sys -> Sys) : M A :=
  fun s => let '(r, s') := body s in (r, cleanup s').

(** [with open(path, 'wb') as f: f.write(data)] on a disk without faults;
    [Disk.write_file_on] is the operation that can fail. *)
Definition write_file (path : string) (data : bytes) : M unit :=
  fun s => (Ok tt, {| files := <[path := data]> (files s); clock := clock s |}).

(** [open(path, 'rb')], read to the end. *)
Definition read_file (path : string) : M bytes :=
  fun s => match files s !! path with
           | Some data => (Ok data, s)
           | None => (Raise ("[Errno 2] No such file or directory: '" +:+ path +:+ "'"), s)
           end.

(** [try: os.remove(path)  except: pass] on a disk without faults;
    [Disk.remove_quietly_on] is the operation that can fail. *)
Definition remove_quietly (path : string) (s : Sys) : Sys :=
  {| files := delete path (files s); clock := clock s |}.

(** [path.endswith('/')] *)
Definition ends_with_slash (path : string) : bool :=
  String.eqb (String.substring (String.length path - 1) 1 path) "/".

(** [os.path.join(directory, filename)], as [posixpath] has it: an absolute
    [filename] stands alone, and the separator is added unless [directory]
    is empty or ends with one. *)
Definition path_join (directory filename : string) : string :=
  if String.prefix "/" filename then filename
  else if String.eqb directory "" || ends_with_slash directory
       then directory +:+ filename
       else directory +:+ "/" +:+ filename.

(** ** The part of Pillow the normalizer uses

    Pillow is a dependency, not part of the repository: these definitions
    follow its documented behaviour. A pixel is the tuple [getpixel]
    returns, one 8-bit value per band. *)

Module PIL.

Record Image := { mode : string; size : nat * nat; getdata : list (list Z) }.

(** [Image.getbands()] *)
Definition getbands (mode : string) : list string :=
  if String.eqb mode "RGBA" then ["R"; "G"; "B"; "A"]
  else if String.eqb mode "RGB" then ["R"; "G"; "B"]
  else if String.eqb mode "LA" then ["L"; "A"]
  else if String.eqb mode "CMYK" then ["C"; "M"; "Y"; "K"]
  else if String.eqb mode "YCbCr" then ["Y"; "Cb"; "Cr"]
  else [mode].

(** [Image.new(mode, size, color)] *)
Definition new (mode : string) (size : nat * nat) (color : list Z) : Image :=
  {| mode := mode; size := size;
     getdata := replicate (fst size * snd size)%nat color |}.

(** [Image.getchannel(i)] *)
Definition getchannel (im : Image) (i : nat) : Image :=
  {| mode := "L"; size := size im;
     getdata := map (fun p => [nth i p 0]) (getdata im) |}.

(** [Image.split()] *)
Definition split (im : Image) : list Image :=
  map (getchannel im) (seq 0 (length (getbands (mode im)))).

(** The colour bands an "RGB" image receives from a pixel of the pasted
    image: "if you paste an RGBA image, the alpha band is ignored"; an "LA"
    pixel gives its luminance to the three bands. *)
Definition rgb_bands (mode : string) (p : list Z) : list Z :=
  if String.eqb mode "LA" then
    let l := nth 0 p 0 in [l; l; l]
  else take 3 p.

(** [DIV255] and [BLEND8] of Pillow's [ImagingUtils.h]: the rounded
    [(in1 * (255 - mask) + in2 * mask) / 255]. *)
Definition DIV255 (a : Z) : Z :=
  let tmp := a + 128 in Z.shiftr (Z.shiftr tmp 8 + tmp) 8.
Definition BLEND8 (mask in1 in2 : Z) : Z :=
  DIV255 (in1 * (255 - mask) + in2 * mask).

(** [self.paste(im, mask=mask)] for an "RGB" [self] and an [im] of the same
    size, the box being the whole image. Without a mask the region is
    overwritten; with an "L" mask, "where the mask is 255 the given image is
    copied as is, where the mask is 0 the current value is preserved,
    intermediate values mix the two images together". *)
Definition paste (self im : Image) (mask : option Image) : Image :=
  {| mode := mode self; size := size self;
     getdata :=
       match mask with
       | None =>
           zip_with (fun _ p => rgb_bands (mode im) p) (getdata self) (getdata im)
       | Some m =>
           zip_with (fun out pa =>
                       zip_with (BLEND8 (nth 0 (snd pa) 0)) out
                                (rgb_bands (mode im) (fst pa)))
                    (getdata self) (zip (getdata im) (getdata m))
       end |}.

(** A decoded image: one pixel per position, one value in [0, 255] per
    band. *)
Definition well_formed (im : Image) : Prop :=
  length (getdata im) = (fst (size im) * snd (size im))%nat /\
  Forall (fun p => length p = length (getbands (mode im)) /\
                   Forall (fun v => 0 <= v <= 255) p) (getdata im).

End PIL.

(** ** src/models.py *)

Module Models.

Inductive ImageSize := SQUARE | LANDSCAPE | PORTRAIT.
Inductive ImageQuality := LOW | STANDARD | HIGH | HD.
Inductive ImageFormat := PNG | JPEG | WEBP.
Inductive OpenAIModel := DALL_E_2 | DALL_E_3 | GPT_IMAGE_1.

(** The [.value] of each enumeration member. *)
Definition size_value (s : ImageSize) : string :=
  match s with
  | SQUARE => "1024x1024" | LANDSCAPE => "1536x1024" | PORTRAIT => "1024x1536"
  end.
Definition quality_value (q : ImageQuality) : string :=
  match q with
  | LOW => "low" | STANDARD => "standard" | HIGH => "high" | HD => "hd"
  end.
Definition format_value (f : ImageFormat) : string :=
  match f with PNG => "png" | JPEG => "jpeg" | WEBP => "webp" end.
Definition model_value (m : OpenAIModel) : string :=
  match m with
  | DALL_E_2 => "dall-e-2" | DALL_E_3 => "dall-e-3" | GPT_IMAGE_1 => "gpt-image-1"
  end.

Module ImageGenerationRequest.
Record t := {
  prompt : string;
  model : OpenAIModel;
  size : ImageSize;
  quality : ImageQuality;
  n : Z;
  response_format : ImageFormat;
  save_to_disk : bool }.
End ImageGenerationRequest.

Module ReferenceGenerationRequest.
Record t := {
  prompt : string;
  image_urls : list string;
  model : OpenAIModel;
  size : ImageSize;
  quality : ImageQuality;
  n : Z;
  response_format : ImageFormat;
  save_to_disk : bool }.
End ReferenceGenerationRequest.

End Models.

(** ** src/services/openai_service.py *)

Module Service.

Import Models.

(** One element of [response.data] as the provider's client returns it; an
    attribute that is missing or [None] is [None]. *)
Record ImageData := {
  url : option string;
  b64_json : option string;
  revised_prompt : option string }.

(** The [image_info] dict, keys "index", "b64_json", "revised_prompt",
    "filename", "file_path"; an absent key and a [None] value are both
    [None]. *)
Module ImageInfo.
Record t := {
  index : nat;
  b64_json : option string;
  revised_prompt : option string;
  filename : option string;
  file_path : option string }.
End ImageInfo.

(** The values stored under "request_params". *)
Inductive PyVal :=
| PyStr (s : string)
| PyInt (i : Z)
| PyList (l : list string).

(** The dict both operations return (the fields of [ImageResponse]); an
    absent key is [None]. *)
Record Outcome := {
  success : bool;
  message : string;
  images : option (list ImageInfo.t);
  request_params : option (list (string * PyVal));
  error : option string }.

(** [{"success": False, "error": error, "message": message}] *)
Definition failure (error message : string) : Outcome :=
  {| success := false; message := message; images := None;
     request_params := None; error := Some error |}.

(** The collaborators of the service: the HTTP client, Pillow's codecs, the
    provider's SDK, base64 and the wall clock. *)
Record World := {
  (** [self.client] is set ([settings.OPENAI_API_KEY] is non-empty) *)
  client : bool;
  (** [requests.get(url, timeout=30, headers=headers, stream=True)],
      [raise_for_status()], [.content] *)
  get_with_headers : string -> Exc bytes;
  (** [requests.get(url)], [raise_for_status()], [.content] *)
  get : string -> Exc bytes;
  (** [Image.open(BytesIO(image_data))] together with the decoding of the
      pixel data, which Pillow defers to the first use of the image ([split],
      [paste], [convert] or [save]): both happen inside the one [try] of
      [_process_image_for_openai], and a failure of either is the same
      exception to its handler *)
  Image_open : bytes -> Exc PIL.Image;
  (** [image.convert('RGB')] *)
  convert_RGB : PIL.Image -> Exc PIL.Image;
  (** [image.save(buffer, format='PNG', quality=95)], the buffer's bytes *)
  save_PNG : PIL.Image -> bytes;
  (** [client.images.generate(model, prompt, size, quality, n,
      response_format)] and the reading of [response.data] by [enumerate]: the
      list of its items, or the exception that either raises (a [data] that
      is [None] is the [TypeError] of [enumerate], raised before any item is
      handled) *)
  images_generate : string -> string -> string -> string -> Z -> string ->
                    Exc (list ImageData);
  (** [client.images.edit(model, image, prompt, size, n)] and the reading of
      [response.data] by [enumerate], as for [images_generate] *)
  images_edit : string -> bytes -> string -> string -> Z -> Exc (list ImageData);
  (** [base64.b64encode(data).decode('utf-8')] *)
  b64encode : bytes -> string;
  (** [base64.b64decode(text)] *)
  b64decode : string -> Exc bytes;
  (** [datetime.now().strftime('%Y%m%d_%H%M%S')] at the given reading of the
      clock *)
  strftime_now : nat -> string }.

(** [settings.GENERATED_IMAGES_DIR] *)
Definition GENERATED_IMAGES_DIR : string := "generated-images".

(** [datetime.now().strftime('%Y%m%d_%H%M%S')] *)
Definition now (w : World) : M string :=
  fun s => (Ok (strftime_now w (clock s)),
            {| files := files s; clock := S (clock s) |}).

(** Python truthiness of an optional string attribute:
    [hasattr(x, 'a') and x.a]. *)
Definition truthy (o : option string) : bool :=
  match o with
  | Some s => negb (String.eqb s "")
  | None => false
  end.

(** [enumerate(l)] *)
Definition enumerate {A} (l : list A) : list (nat * A) :=
  zip (seq 0 (length l)) l.

(** [_create_enhanced_prompt] *)
Definition _create_enhanced_prompt (original_prompt : string) (ref_count : nat)
  : string :=
  if Nat.eqb ref_count 1 then
    "Create a new image based on this reference: " +:+ original_prompt +:+
    ". Use the style, composition, and visual elements from the reference image as inspiration while generating the requested scene."
  else
    "Create a new image combining elements from " +:+ pretty ref_count +:+
    " reference images: " +:+ original_prompt +:+
    ". Synthesize the visual styles, color palettes, and artistic elements from all references into a cohesive artwork.".

(** Lines 191 to 201 of [_process_image_for_openai]: the image that is
    saved. *)
Definition flatten (w : World) (image : PIL.Image) : Exc PIL.Image :=
  if String.eqb (PIL.mode image) "RGBA" || String.eqb (PIL.mode image) "LA" then
    let background := PIL.new "RGB" (PIL.size image) [255; 255; 255] in
    if String.eqb (PIL.mode image) "RGBA" then
      Ok (PIL.paste background image (last (PIL.split image)))
    else
      Ok (PIL.paste background image None)
  else if negb (String.eqb (PIL.mode image) "RGB") then
    convert_RGB w image
  else Ok image.

(** [_process_image_for_openai]; the [BytesIO] it returns, rewound, is the
    sequence of its bytes. *)
Definition _process_image_for_openai (w : World) (image_data : bytes) : Exc bytes :=
  let body :=
    match Image_open w image_data with
    | Raise e => Raise e
    | Ok image =>
        match flatten w image with
        | Raise e => Raise e
        | Ok image' => Ok (save_PNG w image')
        end
    end in
  match body with
  | Ok processed_image => Ok processed_image
  | Raise e => Raise ("Invalid image data: " +:+ e)
  end.

(** [_download_image_from_url] *)
Definition _download_image_from_url (w : World) (url : string)
  : Exc (bytes * bytes) :=
  match get_with_headers w url with
  | Raise e => Raise e
  | Ok raw_data =>
      match _process_image_for_openai w raw_data with
      | Raise e => Raise e
      | Ok processed_image => Ok (raw_data, processed_image)
      end
  end.

(** [_save_image_to_disk]; [b64decode(None)] raises a [TypeError]. *)
Definition _save_image_to_disk (w : World) (b64_json : option string)
    (filename_prefix format : string) : M string :=
  do image_data <-
    lift (match b64_json with
          | Some text => b64decode w text
          | None => Raise "argument should be a bytes-like object or ASCII string, not 'NoneType'"
          end);
  let filename := filename_prefix +:+ "." +:+ format in
  let filepath := path_join GENERATED_IMAGES_DIR filename in
  do_ write_file filepath image_data;
  ret filename.

(** The body of the loop that both operations end with (lines 46 to 55 and
    144 to 153): the optional save, then [images.append(image_info)]. *)
Definition save_and_append (w : World) (save_to_disk : bool)
    (prefix : string) (format : ImageFormat) (idx : nat)
    (image_info : ImageInfo.t) : M ImageInfo.t :=
  if save_to_disk then
    do stamp <- now w;
    do filename <-
      _save_image_to_disk w (ImageInfo.b64_json image_info)
        (prefix +:+ stamp +:+ "_" +:+ pretty idx) (format_value format);
    ret {| ImageInfo.index := ImageInfo.index image_info;
           ImageInfo.b64_json := ImageInfo.b64_json image_info;
           ImageInfo.revised_prompt := ImageInfo.revised_prompt image_info;
           ImageInfo.filename := Some filename;
           ImageInfo.file_path :=
             Some (GENERATED_IMAGES_DIR +:+ "/" +:+ filename) |}
  else ret image_info.

(** [for idx, image_data in enumerate(response.data)] of [generate_image]. *)
Fixpoint generated_images (w : World) (request : ImageGenerationRequest.t)
    (data : list (nat * ImageData)) : M (list ImageInfo.t) :=
  match data with
  | [] => ret []
  | (idx, image_data) :: data' =>
      do image_info <-
        save_and_append w (ImageGenerationRequest.save_to_disk request)
          "generated_" (ImageGenerationRequest.response_format request) idx
          {| ImageInfo.index := idx;
             ImageInfo.b64_json := b64_json image_data;
             ImageInfo.revised_prompt := revised_prompt image_data;
             ImageInfo.filename := None;
             ImageInfo.file_path := None |};
      do images <- generated_images w request data';
      ret (image_info :: images)
  end.

Definition generate_image_body (w : World) (request : ImageGenerationRequest.t)
  : M Outcome :=
  let req := request in
  if negb (client w) then
    ret (failure "OpenAI API key not configured"
                 "Please set OPENAI_API_KEY environment variable")
  else
    do response <-
      lift (images_generate w
              (model_value (ImageGenerationRequest.model req))
              (ImageGenerationRequest.prompt req)
              (size_value (ImageGenerationRequest.size req))
              (quality_value (ImageGenerationRequest.quality req))
              (ImageGenerationRequest.n req)
              "b64_json");
    do images <- generated_images w req (enumerate response);
    ret {| success := true;
           message := "Successfully generated " +:+ pretty (length images) +:+
                      " image(s)";
           images := Some images;
           request_params := Some
             [("model", PyStr (model_value (ImageGenerationRequest.model req)));
              ("prompt", PyStr (ImageGenerationRequest.prompt req));
              ("size", PyStr (size_value (ImageGenerationRequest.size req)));
              ("quality", PyStr (quality_value (ImageGenerationRequest.quality req)));
              ("n", PyInt (ImageGenerationRequest.n req))];
           error := None |}.

(** [generate_image] *)
Definition generate_image (w : World) (request : ImageGenerationRequest.t)
  : Sys -> Outcome * Sys :=
  try_except (generate_image_body w request)
    (fun e => failure e "Failed to generate image").

(** [for idx, image_data_response in enumerate(response.data)] of
    [generate_with_reference_urls] (lines 126 to 153). *)
Fixpoint unified_images (w : World) (request : ReferenceGenerationRequest.t)
    (data : list (nat * ImageData)) : M (list ImageInfo.t) :=
  match data with
  | [] => ret []
  | (idx, image_data_response) :: data' =>
      let append b64_data :=
        do image_info <-
          save_and_append w (ReferenceGenerationRequest.save_to_disk request)
            "reference_" (ReferenceGenerationRequest.response_format request) idx
            {| ImageInfo.index := idx;
               ImageInfo.b64_json := Some b64_data;
               ImageInfo.revised_prompt := None;
               ImageInfo.filename := None;
               ImageInfo.file_path := None |};
        do images <- unified_images w request data';
        ret (image_info :: images) in
      if truthy (url image_data_response) then
        do content <- lift (get w (default "" (url image_data_response)));
        append (b64encode w content)
      else if truthy (b64_json image_data_response) then
        append (default "" (b64_json image_data_response))
      else unified_images w request data'
  end.

(** [temp_path] for the clock reading at which it is named. *)
Definition temp_path (stamp : string) : string :=
  path_join GENERATED_IMAGES_DIR ("temp_ref_" +:+ stamp +:+ ".png").

Definition generate_with_reference_urls_body (w : World)
    (request : ReferenceGenerationRequest.t) : M Outcome :=
  let req := request in
  if negb (client w) then
    ret (failure "OpenAI API key not configured"
                 "Please set OPENAI_API_KEY environment variable")
  else
    match ReferenceGenerationRequest.image_urls req with
    | [] =>
        ret (failure "No reference images provided"
                     "Please provide at least one reference image URL")
    | first_url :: _ =>
        do downloaded <- lift (_download_image_from_url w first_url);
        let processed_image_file := snd downloaded in
        let ref_count := length (ReferenceGenerationRequest.image_urls req) in
        let enhanced_prompt :=
          _create_enhanced_prompt (ReferenceGenerationRequest.prompt req) ref_count in
        do stamp <- now w;
        do_ write_file (temp_path stamp) processed_image_file;
        do response <-
          try_finally
            (do image_file <- read_file (temp_path stamp);
             lift (images_edit w
                     (model_value (ReferenceGenerationRequest.model req))
                     image_file
                     enhanced_prompt
                     (size_value (ReferenceGenerationRequest.size req))
                     (ReferenceGenerationRequest.n req)))
            (remove_quietly (temp_path stamp));
        do images <- unified_images w req (enumerate response);
        ret {| success := true;
               message := "Successfully generated " +:+ pretty (length images) +:+
                          " image(s) using " +:+ pretty ref_count +:+
                          " reference(s)";
               images := Some images;
               request_params := Some
                 [("model", PyStr (model_value (ReferenceGenerationRequest.model req)));
                  ("original_prompt", PyStr (ReferenceGenerationRequest.prompt req));
                  ("enhanced_prompt", PyStr enhanced_prompt);
                  ("size", PyStr (size_value (ReferenceGenerationRequest.size req)));
                  ("n", PyInt (ReferenceGenerationRequest.n req));
                  ("reference_count", PyInt (Z.of_nat ref_count));
                  ("reference_urls", PyList (ReferenceGenerationRequest.image_urls req));
                  ("note", PyStr "Quality parameter not supported by edit endpoint")];
               error := None |}
    end.

(** [generate_with_reference_urls] *)
Definition generate_with_reference_urls (w : World)
    (request : ReferenceGenerationRequest.t) : Sys -> Outcome * Sys :=
  try_except (generate_with_reference_urls_body w request)
    (fun e => failure e "Failed to generate image with references").

(** The same world with another fetcher of reference images. *)
Definition with_reference_fetcher (w : World) (f : string -> Exc bytes) : World :=
  {| client := client w; get_with_headers := f; get := get w;
     Image_open := Image_open w; convert_RGB := convert_RGB w;
     save_PNG := save_PNG w; images_generate := images_generate w;
     images_edit := images_edit w; b64encode := b64encode w;
     b64decode := b64decode w; strftime_now := strftime_now w |}.




(** A pixel with alpha [a] blended over white, band by band. *)
Definition over_white (p : list Z) : list Z :=
  let a := nth 3 p 0 in
  [PIL.BLEND8 a 255 (nth 0 p 0); PIL.BLEND8 a 255 (nth 1 p 0);
   PIL.BLEND8 a 255 (nth 2 p 0)].

End Service.

(** ** A small world for the examples *)

Module Examples.

Import Models Service.
Import Byte.

(** A luminance-alpha image of one pixel, black and fully transparent. *)
Definition transparent_black_LA : PIL.Image :=
  {| PIL.mode := "LA"; PIL.size := (1, 1)%nat; PIL.getdata := [[0; 0]] |}.

(** An RGBA image of three pixels: transparent, opaque and half
    transparent red. *)
Definition three_reds_RGBA : PIL.Image :=
  {| PIL.mode := "RGBA"; PIL.size := (3, 1)%nat;
     PIL.getdata := [[200; 0; 0; 0]; [200; 0; 0; 255]; [200; 0; 0; 128]] |}.

Definition one_pixel_RGB : PIL.Image :=
  {| PIL.mode := "RGB"; PIL.size := (1, 1)%nat; PIL.getdata := [[10; 20; 30]] |}.

Definition first_url : string := "https://example.com/first.png".
Definition second_url : string := "https://example.com/missing.png".
Definition result_url : string := "https://cdn.example.com/out.png".

Definition from_remote : ImageData :=
  {| url := Some result_url; b64_json := None; revised_prompt := None |}.
Definition inline : ImageData :=
  {| url := None; b64_json := Some "AQ=="; revised_prompt := None |}.
Definition neither : ImageData :=
  {| url := None; b64_json := Some ""; revised_prompt := None |}.

(** Only [first_url] and [result_url] can be fetched; the file behind
    [first_url] decodes to [one_pixel_RGB]; the edit endpoint answers one
    inline item when asked for one image and three items otherwise. *)
Definition world : World :=
  {| client := true;
     get_with_headers := fun u =>
       if String.eqb u first_url then Ok [x01]
       else Raise ("404 Client Error: Not Found for url: " +:+ u);
     get := fun u =>
       if String.eqb u result_url then Ok [x02]
       else Raise ("404 Client Error: Not Found for url: " +:+ u);
     Image_open := fun data =>
       match data with
       | [x01] | [x03] => Ok one_pixel_RGB
       | _ => Raise "cannot identify image file"
       end;
     convert_RGB := fun image => Ok image;
     save_PNG := fun _ => [x03];
     images_generate := fun _ _ _ _ _ _ => Ok [inline];
     images_edit := fun _ _ _ _ n =>
       if n =? 1 then Ok [inline] else Ok [from_remote; neither; inline];
     b64encode := fun _ => "Ag==";
     b64decode := fun _ => Ok [x01];
     strftime_now := fun i => "20240101_0000" +:+ pretty i |}.

(** The same world with a provider whose edit endpoint is down. *)
Definition world_edit_down : World :=
  {| client := true;
     get_with_headers := get_with_headers world;
     get := get world;
     Image_open := Image_open world;
     convert_RGB := convert_RGB world;
     save_PNG := save_PNG world;
     images_generate := fun _ _ _ _ _ _ => Raise "Connection error.";
     images_edit := fun _ _ _ _ _ => Raise "Connection error.";
     b64encode := b64encode world;
     b64decode := b64decode world;
     strftime_now := strftime_now world |}.

Definition two_references (n : Z) (save : bool) : ReferenceGenerationRequest.t :=
  {| ReferenceGenerationRequest.prompt := "a cat";
     ReferenceGenerationRequest.image_urls := [first_url; second_url];
     ReferenceGenerationRequest.model := GPT_IMAGE_1;
     ReferenceGenerationRequest.size := LANDSCAPE;
     ReferenceGenerationRequest.quality := HIGH;
     ReferenceGenerationRequest.n := n;
     ReferenceGenerationRequest.response_format := PNG;
     ReferenceGenerationRequest.save_to_disk := save |}.

Definition a_cat : ImageGenerationRequest.t :=
  {| ImageGenerationRequest.prompt := "a cat";
     ImageGenerationRequest.model := DALL_E_3;
     ImageGenerationRequest.size := SQUARE;
     ImageGenerationRequest.quality := STANDARD;
     ImageGenerationRequest.n := 1;
     ImageGenerationRequest.response_format := PNG;
     ImageGenerationRequest.save_to_disk := false |}.

(** A call whose first reference is the one that cannot be fetched. *)
Definition missing_first : ReferenceGenerationRequest.t :=
  {| ReferenceGenerationRequest.prompt := "a cat";
     ReferenceGenerationRequest.image_urls := [second_url; first_url];
     ReferenceGenerationRequest.model := GPT_IMAGE_1;
     ReferenceGenerationRequest.size := LANDSCAPE;
     ReferenceGenerationRequest.quality := HIGH;
     ReferenceGenerationRequest.n := 1;
     ReferenceGenerationRequest.response_format := PNG;
     ReferenceGenerationRequest.save_to_disk := false |}.

(** An empty output directory. *)
Definition fresh : Sys := {| files := ∅; clock := 0 |}.

End Examples.

(** ** Runs of the rate limiter, client by client *)

Module RateLimiterRuns.

Import RateLimiter.

(** The request is one that [dispatch] checks against the record of client
    [k]: not a health check, and made by [k]. *)
Definition checked_for (k : string) (request : Request) : bool :=
  negb (String.eqb (url_path request) "/health") &&
  String.eqb (client_host request) k.

Definition passed_on (response : Response) : bool :=
  match response with
  | CallNext => true
  | _ => false
  end.

(** The clock readings of the requests of client [k] that the limiter
    admitted, in order, given a trace and the responses to it. *)
Fixpoint admitted (k : string) (trace : list (Request * Q))
    (responses : list Response) : list Q :=
  match trace, responses with
  | (request, t) :: trace', response :: responses' =>
      if checked_for k request && passed_on response
      then t :: admitted k trace' responses'
      else admitted k trace' responses'
  | _, _ => []
  end.

(** The responses to the checked requests of client [k]. *)
Fixpoint responses_for (k : string) (trace : list (Request * Q))
    (responses : list Response) : list Response :=
  match trace, responses with
  | (request, _) :: trace', response :: responses' =>
      if checked_for k request
      then response :: responses_for k trace' responses'
      else responses_for k trace' responses'
  | _, _ => []
  end.

(** The trace as client [k] alone would have produced it. *)
Definition restrict (k : string) (trace : list (Request * Q))
  : list (Request * Q) :=
  List.filter (fun entry => checked_for k (fst entry)) trace.

(** [x] lies in the window of 60 seconds that ends at [s], ends included. *)
Definition in_window (s x : Q) : bool :=
  Qle_bool (s - window)%Q x && Qle_bool x s.

(** The state of client [k] after a run whose last clock reading was [T] and
    whose admissions of [k] were [A]: the record is what is left of [A] after
    dropping readings older than the window, it respects the limit, and so
    does every window of 60 seconds over [A]. *)
Definition window_bounded (limit : Z) (k : string) (T : Q) (A : list Q)
    (requests : Requests) : Prop :=
  (exists D, A = D ++ requests !!! k /\
             Forall (fun d => (d < T - window)%Q) D) /\
  Z.of_nat (length (requests !!! k)) <= Z.max 0 limit /\
  forall s, Z.of_nat (length (List.filter (in_window s) A)) <= Z.max 0 limit.

(** No record is longer than the limit allows. *)
Definition records_bounded (limit : Z) (requests : Requests) : Prop :=
  forall k, Z.of_nat (length (requests !!! k)) <= Z.max 0 limit.

End RateLimiterRuns.

(** ** src/routers/reference.py and src/routers/generation.py *)

Module Routers.

Import Models.

(** What a route handler ends with: a raised [HTTPException], the returned
    [ImageResponse] built from the result dict, or the [KeyError] of
    [result["error"]] on a dict without that key. *)
Inductive Reply :=
| HTTPException (status_code : Z) (detail : string)
| ImageResponse (body : Service.Outcome)
| KeyError (key : string).

(** The end of both handlers:
    [if not result["success"]: raise HTTPException(status_code=400,
    detail=result["error"])], then the [ImageResponse] of the result is
    returned. *)
Definition respond (result : Service.Outcome) : Reply :=
  if negb (Service.success result) then
    match Service.error result with
    | Some detail => HTTPException 400 detail
    | None => KeyError "error"
    end
  else ImageResponse result.

(** [generate_with_reference] of [routers/reference.py] *)
Definition generate_with_reference (w : Service.World)
    (request : ReferenceGenerationRequest.t) (sys : Sys) : Reply * Sys :=
  if (5 <? length (ReferenceGenerationRequest.image_urls request))%nat then
    (HTTPException 400 "Maximum 5 reference images allowed", sys)
  else
    let '(result, sys') := Service.generate_with_reference_urls w request sys in
    (respond result, sys').

(** [generate_image] of [routers/generation.py] *)
Definition generate_image (w : Service.World)
    (request : ImageGenerationRequest.t) (sys : Sys) : Reply * Sys :=
  let '(result, sys') := Service.generate_image w request sys in
  (respond result, sys').

End Routers.

(** ** What the provider gateway leaves behind *)

Module ServiceRuns.

Import Models Service.

(** An entry of [generate_image] comes from the response item at its
    position, unchanged. *)
Definition generated_from (entry : nat * ImageData) (image_info : ImageInfo.t)
  : Prop :=
  ImageInfo.index image_info = fst entry /\
  ImageInfo.b64_json image_info = b64_json (snd entry) /\
  ImageInfo.revised_prompt image_info = revised_prompt (snd entry).

(** The entry names a file of the output directory, and the file is
    there. *)
Definition saved_in (sys : Sys) (image_info : ImageInfo.t) : Prop :=
  exists filename,
    ImageInfo.filename image_info = Some filename /\
    ImageInfo.file_path image_info
      = Some (GENERATED_IMAGES_DIR +:+ "/" +:+ filename) /\
    is_Some (files sys !! path_join GENERATED_IMAGES_DIR filename).

(** Files are only added or replaced from [s] to [s']. *)
Definition grows (s s' : Sys) : Prop :=
  forall p, is_Some (files s !! p) -> is_Some (files s' !! p).

(** A call with six reference URLs. *)
Definition six_references : ReferenceGenerationRequest.t :=
  {| ReferenceGenerationRequest.prompt := "a cat";
     ReferenceGenerationRequest.image_urls :=
       [Examples.first_url; Examples.first_url; Examples.first_url;
        Examples.first_url; Examples.first_url; Examples.first_url];
     ReferenceGenerationRequest.model := GPT_IMAGE_1;
     ReferenceGenerationRequest.size := LANDSCAPE;
     ReferenceGenerationRequest.quality := HIGH;
     ReferenceGenerationRequest.n := 1;
     ReferenceGenerationRequest.response_format := PNG;
     ReferenceGenerationRequest.save_to_disk := true |}.

(** A call without reference URLs. *)
Definition no_references : ReferenceGenerationRequest.t :=
  {| ReferenceGenerationRequest.prompt := "a cat";
     ReferenceGenerationRequest.image_urls := [];
     ReferenceGenerationRequest.model := GPT_IMAGE_1;
     ReferenceGenerationRequest.size := LANDSCAPE;
     ReferenceGenerationRequest.quality := HIGH;
     ReferenceGenerationRequest.n := 1;
     ReferenceGenerationRequest.response_format := PNG;
     ReferenceGenerationRequest.save_to_disk := true |}.

(** A text-to-image call that saves its results. *)
Definition a_saved_cat : ImageGenerationRequest.t :=
  {| ImageGenerationRequest.prompt := "a cat";
     ImageGenerationRequest.model := DALL_E_3;
     ImageGenerationRequest.size := SQUARE;
     ImageGenerationRequest.quality := STANDARD;
     ImageGenerationRequest.n := 1;
     ImageGenerationRequest.response_format := PNG;
     ImageGenerationRequest.save_to_disk := true |}.

(** The small world without an API key. *)
Definition world_without_key : World :=
  {| client := false;
     get_with_headers := get_with_headers Examples.world;
     get := get Examples.world;
     Image_open := Image_open Examples.world;
     convert_RGB := convert_RGB Examples.world;
     save_PNG := save_PNG Examples.world;
     images_generate := images_generate Examples.world;
     images_edit := images_edit Examples.world;
     b64encode := b64encode Examples.world;
     b64decode := b64decode Examples.world;
     strftime_now := strftime_now Examples.world |}.

End ServiceRuns.

(** ** The reference-guided call on a disk that can fail *)

Module Disk.

Import Models Service.

(** What can go wrong with a file of the output directory, path by path:
    [open(path, 'wb')] raises and creates nothing; the write raises after
    the file has been created, leaving the given bytes in it;
    [open(path, 'rb')] raises; [os.remove(path)] raises and leaves the file.
    Each carries the text of the exception. *)
Record Faults := {
  open_for_writing : string -> option string;
  writing : string -> option (string * bytes);
  open_for_reading : string -> option string;
  removing : string -> option string }.

Definition no_faults : Faults :=
  {| open_for_writing := fun _ => None; writing := fun _ => None;
     open_for_reading := fun _ => None; removing := fun _ => None |}.

(** [with open(path, 'wb') as f: f.write(data)] *)
Definition write_file_on (d : Faults) (path : string) (data : bytes) : M unit :=
  fun s =>
    match open_for_writing d path with
    | Some e => (Raise e, s)
    | None =>
        match writing d path with
        | Some (e, written) =>
            (Raise e, {| files := <[path := written]> (files s);
                         clock := clock s |})
        | None =>
            (Ok tt, {| files := <[path := data]> (files s); clock := clock s |})
        end
    end.

(** [open(path, 'rb')], read to the end. *)
Definition read_file_on (d : Faults) (path : string) : M bytes :=
  fun s =>
    match open_for_reading d path with
    | Some e => (Raise e, s)
    | None => read_file path s
    end.

(** [try: os.remove(path)  except: pass]: a removal that raises, because of
    a fault or because there is no such file, is passed over. *)
Definition remove_quietly_on (d : Faults) (path : string) (s : Sys) : Sys :=
  match removing d path with
  | Some _ => s
  | None => {| files := delete path (files s); clock := clock s |}
  end.

(** [_save_image_to_disk] *)
Definition _save_image_to_disk_on (d : Faults) (w : World)
    (b64_json : option string) (filename_prefix format : string) : M string :=
  do image_data <-
    lift (match b64_json with
          | Some text => b64decode w text
          | None => Raise "argument should be a bytes-like object or ASCII string, not 'NoneType'"
          end);
  let filename := filename_prefix +:+ "." +:+ format in
  let filepath := path_join GENERATED_IMAGES_DIR filename in
  do_ write_file_on d filepath image_data;
  ret filename.

(** Lines 144 to 153: the optional save, then [images.append(image_info)]. *)
Definition save_and_append_on (d : Faults) (w : World) (save_to_disk : bool)
    (prefix : string) (format : ImageFormat) (idx : nat)
    (image_info : ImageInfo.t) : M ImageInfo.t :=
  if save_to_disk then
    do stamp <- now w;
    do filename <-
      _save_image_to_disk_on d w (ImageInfo.b64_json image_info)
        (prefix +:+ stamp +:+ "_" +:+ pretty idx) (format_value format);
    ret {| ImageInfo.index := ImageInfo.index image_info;
           ImageInfo.b64_json := ImageInfo.b64_json image_info;
           ImageInfo.revised_prompt := ImageInfo.revised_prompt image_info;
           ImageInfo.filename := Some filename;
           ImageInfo.file_path :=
             Some (GENERATED_IMAGES_DIR +:+ "/" +:+ filename) |}
  else ret image_info.

(** Lines 126 to 153. *)
Fixpoint unified_images_on (d : Faults) (w : World)
    (request : ReferenceGenerationRequest.t)
    (data : list (nat * ImageData)) : M (list ImageInfo.t) :=
  match data with
  | [] => ret []
  | (idx, image_data_response) :: data' =>
      let append b64_data :=
        do image_info <-
          save_and_append_on d w (ReferenceGenerationRequest.save_to_disk request)
            "reference_" (ReferenceGenerationRequest.response_format request) idx
            {| ImageInfo.index := idx;
               ImageInfo.b64_json := Some b64_data;
               ImageInfo.revised_prompt := None;
               ImageInfo.filename := None;
               ImageInfo.file_path := None |};
        do images <- unified_images_on d w request data';
        ret (image_info :: images) in
      if truthy (url image_data_response) then
        do content <- lift (get w (default "" (url image_data_response)));
        append (b64encode w content)
      else if truthy (b64_json image_data_response) then
        append (default "" (b64_json image_data_response))
      else unified_images_on d w request data'
  end.

Definition generate_with_reference_urls_body_on (d : Faults) (w : World)
    (request : ReferenceGenerationRequest.t) : M Outcome :=
  let req := request in
  if negb (client w) then
    ret (failure "OpenAI API key not configured"
                 "Please set OPENAI_API_KEY environment variable")
  else
    match ReferenceGenerationRequest.image_urls req with
    | [] =>
        ret (failure "No reference images provided"
                     "Please provide at least one reference image URL")
    | first_url :: _ =>
        do downloaded <- lift (_download_image_from_url w first_url);
        let processed_image_file := snd downloaded in
        let ref_count := length (ReferenceGenerationRequest.image_urls req) in
        let enhanced_prompt :=
          _create_enhanced_prompt (ReferenceGenerationRequest.prompt req) ref_count in
        do stamp <- now w;
        do_ write_file_on d (temp_path stamp) processed_image_file;
        do response <-
          try_finally
            (do image_file <- read_file_on d (temp_path stamp);
             lift (images_edit w
                     (model_value (ReferenceGenerationRequest.model req))
                     image_file
                     enhanced_prompt
                     (size_value (ReferenceGenerationRequest.size req))
                     (ReferenceGenerationRequest.n req)))
            (remove_quietly_on d (temp_path stamp));
        do images <- unified_images_on d w req (enumerate response);
        ret {| success := true;
               message := "Successfully generated " +:+ pretty (length images) +:+
                          " image(s) using " +:+ pretty ref_count +:+
                          " reference(s)";
               images := Some images;
               request_params := Some
                 [("model", PyStr (model_value (ReferenceGenerationRequest.model req)));
                  ("original_prompt", PyStr (ReferenceGenerationRequest.prompt req));
                  ("enhanced_prompt", PyStr enhanced_prompt);
                  ("size", PyStr (size_value (ReferenceGenerationRequest.size req)));
                  ("n", PyInt (ReferenceGenerationRequest.n req));
                  ("reference_count", PyInt (Z.of_nat ref_count));
                  ("reference_urls", PyList (ReferenceGenerationRequest.image_urls req));
                  ("note", PyStr "Quality parameter not supported by edit endpoint")];
               error := None |}
    end.

(** [generate_with_reference_urls], with the faults of the disk it runs
    on. *)
Definition generate_with_reference_urls_on (d : Faults) (w : World)
    (request : ReferenceGenerationRequest.t) : Sys -> Outcome * Sys :=
  try_except (generate_with_reference_urls_body_on d w request)
    (fun e => failure e "Failed to generate image with references").

(** A disk on which no file can be removed. *)
Definition removal_denied : Faults :=
  {| open_for_writing := fun _ => None; writing := fun _ => None;
     open_for_reading := fun _ => None;
     removing := fun path =>
       Some ("[Errno 13] Permission denied: '" +:+ path +:+ "'") |}.

End Disk.

(** * Properties of the rate limiter *)

Module RateLimiterFacts.

Import RateLimiter.

Lemma Qltb_true (x y : Q) : Qltb x y = true <-> (x < y)%Q.
Proof.
  unfold Qltb. rewrite negb_true_iff, <- not_true_iff_false, Qle_bool_iff.
  split; [apply Qnot_le_lt | apply Qlt_not_le].
Qed.

Lemma Qltb_false (x y : Q) : Qltb x y = false <-> (y <= x)%Q.
Proof. unfold Qltb. rewrite negb_false_iff. apply Qle_bool_iff. Qed.

(** Pruning is a prefix trim: what remains is a suffix of the record. *)
Lemma prune_suffix (cutoff : Q) (d : list Q) : prune cutoff d `suffix_of` d.
Proof.
  induction d as [|x d IH]; simpl; [done|].
  destruct (Qltb x cutoff); [by apply suffix_cons_r | done].
Qed.

(** The loop stops at a timestamp that is not older than the cutoff. *)
Lemma prune_head (cutoff : Q) (d : list Q) (x : Q) :
  head (prune cutoff d) = Some x -> (cutoff <= x)%Q.
Proof.
  induction d as [|y d IH]; simpl; [done|].
  destruct (Qltb y cutoff) eqn:E; [done|].
  simpl. intros [= <-]. by apply Qltb_false.
Qed.

(** Nothing is removed when the oldest timestamp is recent enough. *)
Lemma prune_keep (cutoff : Q) (x : Q) (d : list Q) :
  (cutoff <= x)%Q -> prune cutoff (x :: d) = x :: d.
Proof. intros H. simpl. apply Qltb_false in H. by rewrite H. Qed.

(** A record in arrival order whose oldest entry is recent has only recent
    entries. *)
Lemma nondecreasing_tail (x : Q) (d : list Q) :
  nondecreasing (x :: d) -> nondecreasing d.
Proof. destruct d as [|y d]; simpl; tauto. Qed.

Lemma nondecreasing_lower (c x : Q) (d : list Q) :
  nondecreasing (x :: d) -> (c <= x)%Q -> Forall (fun y => (c <= y)%Q) (x :: d).
Proof.
  revert x. induction d as [|y d IH]; intros x Hs Hx.
  - by constructor.
  - destruct Hs as [Hxy Hs]. constructor; [done|].
    apply IH; [done|]. by apply Qle_trans with x.
Qed.

Lemma prune_nondecreasing (cutoff : Q) (d : list Q) :
  nondecreasing d -> nondecreasing (prune cutoff d).
Proof.
  induction d as [|x d IH]; [done|]. intros Hs.
  cbn [prune]. destruct (Qltb x cutoff); [|done].
  apply IH. by apply nondecreasing_tail with x.
Qed.

Lemma prune_recent (cutoff : Q) (d : list Q) :
  nondecreasing d -> Forall (fun y => (cutoff <= y)%Q) (prune cutoff d).
Proof.
  intros Hs. pose proof (prune_nondecreasing cutoff d Hs) as Hp.
  pose proof (prune_head cutoff d) as Hh.
  destruct (prune cutoff d) as [|x p]; [constructor|].
  apply nondecreasing_lower; [done|]. by apply Hh.
Qed.

Lemma nondecreasing_snoc (d : list Q) (t : Q) :
  nondecreasing d -> Forall (fun y => (y <= t)%Q) d -> nondecreasing (d ++ [t]).
Proof.
  induction d as [|x d IH]; [done|]. intros Hs Hb.
  apply Forall_cons in Hb as [Hx Hb].
  destruct d as [|y d]; [by split|].
  destruct Hs as [Hxy Hs]. split; [done|]. by apply IH.
Qed.

Lemma nondecreasing_app_inv (l1 l2 : list Q) :
  nondecreasing (l1 ++ l2) -> nondecreasing l2.
Proof.
  induction l1 as [|x l1 IH]; [done|]. intros H.
  apply IH. by apply nondecreasing_tail with x.
Qed.

(** The shape of [dispatch] on a request that is not a health check. *)
Lemma dispatch_checked (limit : Z) (requests : Requests) (request : Request) (t : Q) :
  url_path request <> "/health" ->
  let d := prune (t - window)%Q (requests !!! client_host request) in
  dispatch limit requests request t =
    if limit <=? Z.of_nat (length d) then
      match d with
      | [] => (IndexError, <[client_host request := d]> requests)
      | oldest :: _ =>
          (JSONResponse 429 "Rate limit exceeded" (limit_message limit)
             (int (window - (t - oldest))%Q),
           <[client_host request := d]> requests)
      end
    else (CallNext, <[client_host request := d ++ [t]]> requests).
Proof.
  intros Hp. unfold dispatch. apply String.eqb_neq in Hp. rewrite Hp.
  cbn zeta. by rewrite insert_insert_eq.
Qed.

Lemma dispatch_health (limit : Z) (requests : Requests) (request : Request) (t : Q) :
  url_path request = "/health" ->
  dispatch limit requests request t = (CallNext, requests).
Proof. intros Hp. unfold dispatch. by rewrite Hp. Qed.

Lemma ordered_empty (T : Q) : ordered T ∅.
Proof. intros k. rewrite lookup_total_empty. by split. Qed.

Lemma dispatch_ordered (limit : Z) (T t : Q) (requests : Requests) (request : Request) :
  ordered T requests -> (T <= t)%Q ->
  ordered t (snd (dispatch limit requests request t)).
Proof.
  intros Ho Ht.
  assert (Hweak : forall l : list Q,
             Forall (fun y => (y <= T)%Q) l -> Forall (fun y => (y <= t)%Q) l).
  { intros l Hl. eapply Forall_impl; [exact Hl|].
    intros y Hy. by apply Qle_trans with T. }
  destruct (String.eqb_spec (url_path request) "/health") as [Hp|Hp].
  { rewrite dispatch_health by done. intros k. destruct (Ho k). auto. }
  rewrite dispatch_checked by done. cbn zeta.
  set (key := client_host request).
  set (d := prune (t - window)%Q (requests !!! key)).
  assert (Hd : nondecreasing d /\ Forall (fun y => (y <= t)%Q) d).
  { destruct (Ho key) as [Hs Hb]. split; [by apply prune_nondecreasing|].
    apply Hweak.
    destruct (prune_suffix (t - window)%Q (requests !!! key)) as [pre Hpre].
    fold d in Hpre. rewrite Hpre in Hb. by apply Forall_app in Hb as [_ Hb]. }
  assert (Hother : forall (d' : list Q) k, k <> key ->
             nondecreasing (<[key := d']> requests !!! k) /\
             Forall (fun y => (y <= t)%Q) (<[key := d']> requests !!! k)).
  { intros d' k Hk. rewrite lookup_total_insert_ne by done.
    destruct (Ho k). auto. }
  destruct (limit <=? Z.of_nat (length d)).
  - assert (Hsame : ordered t (<[key := d]> requests)).
    { intros k. destruct (decide (k = key)) as [->|Hk]; [|by apply Hother].
      by rewrite lookup_total_insert_eq. }
    by destruct d.
  - cbn [snd]. intros k. destruct (decide (k = key)) as [->|Hk]; [|by apply Hother].
    rewrite lookup_total_insert_eq. destruct Hd as [Hs Hb]. split.
    + by apply nondecreasing_snoc.
    + apply Forall_app. split; [done|]. constructor; [apply Qle_refl|constructor].
Qed.

Lemma run_cons (limit : Z) (requests : Requests) (request : Request) (t : Q)
    (trace : list (Request * Q)) :
  snd (run limit requests ((request, t) :: trace)) =
  snd (run limit (snd (dispatch limit requests request t)) trace).
Proof.
  cbn [run]. destruct (dispatch limit requests request t) as [r m1].
  cbn [snd]. by destruct (run limit m1 trace).
Qed.

(** Along a trace whose clock readings never decrease, the records stay in
    arrival order and below the next reading. *)
Lemma run_ordered (limit : Z) (trace : list (Request * Q)) :
  forall (T t : Q) (requests : Requests),
    ordered T requests ->
    nondecreasing (T :: map snd trace ++ [t]) ->
    exists T', (T' <= t)%Q /\ ordered T' (snd (run limit requests trace)).
Proof.
  induction trace as [|[request t0] trace IH]; intros T t requests Ho Hs.
  - exists T. split; [|done]. by destruct Hs.
  - rewrite run_cons. destruct Hs as [HT Hs].
    apply (IH t0 t); [|done]. by apply dispatch_ordered with T.
Qed.

(** C1, as the code has it. For every client key, along any run of the
    limiter from its empty initial state in which the clock readings of
    successive checks never decrease: immediately
    after the pruning step of an admission check at time [t], every timestamp
    remaining in the key's record is at least [t - 60]; the check leaves
    either this pruned record or, when it admits, the pruned record with [t]
    appended; and at the instant a request is admitted the record holds at
    most [limit] timestamps, the appended one included. *)
Theorem C1_sliding_window_invariant (limit : Z) (trace : list (Request * Q))
    (request : Request) (t : Q) :
  nondecreasing (map snd trace ++ [t]) ->
  url_path request <> "/health" ->
  let requests := snd (run limit ∅ trace) in
  let key := client_host request in
  let pruned := prune (t - window)%Q (requests !!! key) in
  Forall (fun x => (t - 60 <= x)%Q) pruned /\
  (snd (dispatch limit requests request t) !!! key = pruned \/
   snd (dispatch limit requests request t) !!! key = pruned ++ [t]) /\
  (forall requests',
      dispatch limit requests request t = (CallNext, requests') ->
      requests' !!! key = pruned ++ [t] /\
      Z.of_nat (length (requests' !!! key)) <= limit).
Proof.
  intros Hs Hp requests key pruned.
  assert (Hord : exists T', (T' <= t)%Q /\ ordered T' requests).
  { destruct (map snd trace ++ [t]) as [|t0 ts] eqn:E.
    { by destruct (map snd trace). }
    apply (run_ordered limit trace t0 t); [apply ordered_empty|].
    rewrite E. split; [apply Qle_refl | done]. }
  destruct Hord as (T' & _ & Ho).
  split; [|split].
  - apply (prune_recent (t - window)%Q). apply Ho.
  - rewrite dispatch_checked by done. cbn zeta. fold key pruned.
    destruct (limit <=? Z.of_nat (length pruned)).
    + left. destruct pruned; cbn [snd]; by rewrite lookup_total_insert_eq.
    + right. cbn [snd]. by rewrite lookup_total_insert_eq.
  - intros requests'. rewrite dispatch_checked by done. cbn zeta. fold key pruned.
    destruct (Z.leb_spec limit (Z.of_nat (length pruned))) as [Hge|Hlt].
    + destruct pruned; discriminate.
    + intros [= <-]. rewrite lookup_total_insert_eq. split; [done|].
      rewrite length_app. cbn [length]. lia.
Qed.

(** [int] on a non-negative reading. *)
Lemma int_nonneg (x : Q) : (0 <= x)%Q -> 0 <= int x.
Proof.
  destruct x as [a b]. unfold Qle, int. cbn [Qnum Qden]. intros H.
  apply Z.quot_pos; lia.
Qed.

Lemma int_positive (x : Q) : (0 <= x)%Q -> (0 < int x <-> (1 <= x)%Q).
Proof.
  destruct x as [a b]. unfold Qle, int. cbn [Qnum Qden]. intros H.
  assert (Ha : 0 <= a) by lia. split.
  - intros Hq. destruct (Z_lt_le_dec a (Z.pos b)) as [Hlt|Hle]; [|lia].
    rewrite Z.quot_small in Hq by lia. lia.
  - intros Hle. apply Z.quot_str_pos. lia.
Qed.

(** The admission rule of [dispatch] for a limit of at least one: with the
    pruned record at the limit, a 429 whose [retry_after] is the truncation
    of [window - (current_time - oldest)], which is not negative; below the
    limit, the reading is appended and the request passed on. *)
Lemma dispatch_admission_rule (limit : Z) (requests : Requests)
    (request : Request) (t : Q) :
  1 <= limit ->
  url_path request <> "/health" ->
  let key := client_host request in
  let d := prune (t - window)%Q (requests !!! key) in
  (limit <= Z.of_nat (length d) ->
   exists oldest,
     head d = Some oldest /\
     dispatch limit requests request t =
       (JSONResponse 429 "Rate limit exceeded" (limit_message limit)
          (int (window - (t - oldest))%Q),
        <[key := d]> requests) /\
     0 <= int (window - (t - oldest))%Q) /\
  (Z.of_nat (length d) < limit ->
   dispatch limit requests request t = (CallNext, <[key := d ++ [t]]> requests)).
Proof.
  intros Hl Hp key d. rewrite dispatch_checked by done. cbn zeta. fold key d.
  split; intros Hcmp.
  - apply Z.leb_le in Hcmp as Hb. rewrite Hb.
    pose proof (prune_head (t - window)%Q (requests !!! key)) as Hh. fold d in Hh.
    destruct d as [|oldest d']; [cbn [length] in Hcmp; lia|].
    exists oldest. split; [done|]. split; [done|].
    apply int_nonneg. specialize (Hh oldest eq_refl). unfold window in *. lra.
  - apply Z.leb_gt in Hcmp. by rewrite Hcmp.
Qed.

(** C2. With [RATE_LIMIT_PER_MINUTE=0] the first request of a client finds
    its pruned record, of length 0, at the limit; [dispatch] then reads
    [self.requests[client_ip][0]] of the empty deque and raises [IndexError]
    where a 429 with a [retry_after] was due. *)
Theorem C2_zero_limit_raises :
  dispatch 0 ∅ {| url_path := "/api/v1/images/generate";
                  client_host := "203.0.113.7" |} 1730000000%Q
  = (IndexError, {[ "203.0.113.7" := [] ]}).
Proof. reflexivity. Qed.

(** Nothing is removed from a record whose timestamps are all recent. *)
Lemma prune_all_recent (cutoff : Q) (d : list Q) :
  Forall (fun x => (cutoff <= x)%Q) d -> prune cutoff d = d.
Proof. destruct 1; [done|]. by apply prune_keep. Qed.

Lemma run_cons_pair (limit : Z) (requests : Requests) (request : Request) (t : Q)
    (trace : list (Request * Q)) :
  run limit requests ((request, t) :: trace) =
  (fst (dispatch limit requests request t)
     :: fst (run limit (snd (dispatch limit requests request t)) trace),
   snd (run limit (snd (dispatch limit requests request t)) trace)).
Proof.
  cbn [run]. destruct (dispatch limit requests request t) as [r m1].
  cbn [fst snd]. by destruct (run limit m1 trace).
Qed.

(** Requests of one client whose readings all lie in one window of 60
    seconds are all admitted, and recorded in order, as long as the limit
    is not exceeded. *)
Lemma run_admits (limit : Z) (request : Request) (T : Q) (ts : list Q) :
  url_path request <> "/health" ->
  forall (acc : list Q) (requests : Requests),
    requests !!! client_host request = acc ->
    Forall (fun x => (T - 60 <= x)%Q /\ (x <= T)%Q) (acc ++ ts) ->
    Z.of_nat (length (acc ++ ts)) <= limit ->
    fst (run limit requests (map (fun ti => (request, ti)) ts))
      = replicate (length ts) CallNext /\
    snd (run limit requests (map (fun ti => (request, ti)) ts))
      !!! client_host request = acc ++ ts.
Proof.
  intros Hp. induction ts as [|t ts IH]; intros acc requests Hacc Hwin Hlen.
  - cbn. by rewrite app_nil_r.
  - cbn [map]. rewrite run_cons_pair. cbn [fst snd length replicate].
    assert (Ht : (t <= T)%Q).
    { apply Forall_app in Hwin as [_ Hwin].
      apply Forall_cons in Hwin as [[_ Ht] _]. done. }
    assert (Hkeep : prune (t - window)%Q acc = acc).
    { apply prune_all_recent. apply Forall_app in Hwin as [Hwin _].
      eapply Forall_impl; [exact Hwin|]. intros x [Hx _]. unfold window. lra. }
    rewrite dispatch_checked by done. cbn zeta. rewrite Hacc, Hkeep.
    assert (Hlt : (limit <=? Z.of_nat (length acc)) = false).
    { apply Z.leb_gt. rewrite length_app in Hlen. cbn [length] in Hlen. lia. }
    rewrite Hlt. cbn [fst snd].
    destruct (IH (acc ++ [t]) (<[client_host request := acc ++ [t]]> requests))
      as [IH1 IH2].
    + by rewrite lookup_total_insert_eq.
    + by rewrite <- app_assoc.
    + by rewrite <- app_assoc.
    + rewrite IH1, IH2. by rewrite <- app_assoc.
Qed.

(** C3, as the code has it. For every client key with [limit = 60]: when 60
    requests of the key, all made within the minute that ends at [t], have
    been admitted and a 61st request of the key arrives at [t], the response
    is HTTP 429 and its [retry_after] is the truncation of
    [60 - (t - oldest)], which is not negative; it is strictly greater than 0
    exactly when the oldest of the 60 admissions is at most 59 seconds old. *)
Theorem C3_sixty_first_request (requests : Requests) (request : Request)
    (ts : list Q) (t : Q) :
  url_path request <> "/health" ->
  requests !!! client_host request = [] ->
  length ts = 60%nat ->
  Forall (fun x => (t - 60 <= x)%Q /\ (x <= t)%Q) ts ->
  let trace := map (fun ti => (request, ti)) ts in
  fst (run 60 requests trace) = replicate 60 CallNext /\
  exists oldest retry_after,
    head ts = Some oldest /\
    fst (dispatch 60 (snd (run 60 requests trace)) request t)
      = JSONResponse 429 "Rate limit exceeded" (limit_message 60) retry_after /\
    retry_after = int (60 - (t - oldest))%Q /\
    0 <= retry_after /\
    (0 < retry_after <-> (t - oldest <= 59)%Q).
Proof.
  intros Hp Hnew Hlen Hwin trace.
  destruct (run_admits 60 request t ts Hp [] requests Hnew) as [Hadm Hrec].
  { done. }
  { cbn [app]. rewrite Hlen. lia. }
  cbn [app] in Hrec. fold trace in Hadm, Hrec.
  split; [by rewrite Hadm, Hlen|].
  rewrite dispatch_checked by done. cbn zeta. rewrite Hrec.
  assert (Hkeep : prune (t - window)%Q ts = ts).
  { apply prune_all_recent. eapply Forall_impl; [exact Hwin|].
    intros x [Hx _]. unfold window. lra. }
  rewrite Hkeep, Hlen. cbn [Z.leb Z.of_nat Z.compare Pos.compare].
  change (60 <=? Z.of_nat 60) with true. cbn iota.
  destruct ts as [|oldest ts']; [discriminate|].
  apply Forall_cons in Hwin as [[Hlo Hhi] _].
  exists oldest, (int (60 - (t - oldest))%Q).
  split; [done|]. split; [done|]. split; [done|]. split.
  - apply int_nonneg. lra.
  - rewrite int_positive by lra. split; intros H; lra.
Qed.

(** C10. A check that answers 429 leaves the key's record as the pruning
    step left it, a suffix of the record before the check with nothing
    appended; and no check, whatever its answer, changes the record of
    another key. *)
Theorem C10_rejection_consumes_no_capacity (limit : Z) (requests : Requests)
    (request : Request) (t : Q) :
  let key := client_host request in
  (forall error message retry_after requests',
      dispatch limit requests request t
        = (JSONResponse 429 error message retry_after, requests') ->
      requests' !!! key = prune (t - window)%Q (requests !!! key) /\
      (requests' !!! key) `suffix_of` (requests !!! key) /\
      (length (requests' !!! key) <= length (requests !!! key))%nat) /\
  (forall k, k <> key ->
      snd (dispatch limit requests request t) !! k = requests !! k).
Proof.
  intros key.
  destruct (String.eqb_spec (url_path request) "/health") as [Hp|Hp].
  { rewrite dispatch_health by done. split; [discriminate | done]. }
  rewrite dispatch_checked by done. cbn zeta. fold key.
  set (d := prune (t - window)%Q (requests !!! key)).
  assert (Hsuf : d `suffix_of` requests !!! key) by apply prune_suffix.
  split.
  - intros error message retry_after requests'.
    destruct (limit <=? Z.of_nat (length d)); [|discriminate].
    destruct d as [|oldest d'] eqn:Ed; [discriminate|].
    intros [= _ _ _ <-]. rewrite lookup_total_insert_eq.
    split; [done|]. split; [done|]. by apply suffix_length.
  - intros k Hk.
    destruct (limit <=? Z.of_nat (length d)); [destruct d|];
      cbn [snd]; by rewrite lookup_insert_ne.
Qed.

(** *** The properties at concrete requests *)

(** Two admissions at 0 s and 10 s, then a check at 70 s under a limit
    of 2. *)
Lemma C1_sliding_window_invariant_witness :
  nondecreasing (map snd [(a_request, 0%Q); (a_request, 10%Q)] ++ [70%Q]) /\
  url_path a_request <> "/health" /\
  Forall (fun x => (70 - 60 <= x)%Q)
    (prune (70 - window)%Q
       (snd (run 2 ∅ [(a_request, 0%Q); (a_request, 10%Q)])
          !!! client_host a_request)).
Proof.
  assert (H1 : nondecreasing
                 (map snd [(a_request, 0%Q); (a_request, 10%Q)] ++ [70%Q])).
  { simpl. repeat split; unfold Qle; simpl; lia. }
  assert (H2 : url_path a_request <> "/health") by (simpl; discriminate).
  split; [exact H1|]. split; [exact H2|].
  exact (proj1 (C1_sliding_window_invariant 2
                  [(a_request, 0%Q); (a_request, 10%Q)] a_request 70%Q H1 H2)).
Defined.

(** A clock that steps back: admissions at 100 s and then at 50 s, and a
    check at 155 s under a limit of 2. The loop stops at the head, 100, and
    the reading 50, older than 95, stays in the record. *)
Lemma C1_counterexample :
  let trace := [(a_request, 100%Q); (a_request, 50%Q)] in
  let requests := snd (run 2 ∅ trace) in
  let pruned := prune (155 - window)%Q (requests !!! client_host a_request) in
  url_path a_request <> "/health" /\
  fst (run 2 ∅ trace) = [CallNext; CallNext] /\
  pruned = [100%Q; 50%Q] /\
  ~ Forall (fun x => (155 - 60 <= x)%Q) pruned.
Proof.
  cbv zeta.
  assert (E : prune (155 - window)%Q
                (snd (run 2 ∅ [(a_request, 100%Q); (a_request, 50%Q)])
                   !!! client_host a_request) = [100%Q; 50%Q])
    by (vm_compute; reflexivity).
  split; [simpl; discriminate|]. split; [vm_compute; reflexivity|].
  split; [exact E|]. rewrite E. intros H.
  apply Forall_cons in H as [_ H]. apply Forall_cons in H as [H _].
  revert H. unfold Qle. simpl. lia.
Qed.

(** Sixty admissions at 0 s, the 61st request half a second before the
    minute is over: the answer is 429 with [retry_after = 0]. *)
Lemma C3_counterexample :
  let trace := replicate 60 (a_request, 0%Q) in
  let t := (119 # 2)%Q in
  Forall (fun ti => (t - 60 <= snd ti)%Q /\ (snd ti <= t)%Q) trace /\
  fst (run 60 ∅ trace) = replicate 60 CallNext /\
  status_of (fst (dispatch 60 (snd (run 60 ∅ trace)) a_request t)) = Some 429 /\
  retry_after_of (fst (dispatch 60 (snd (run 60 ∅ trace)) a_request t)) = Some 0 /\
  ~ (exists retry_after,
        retry_after_of (fst (dispatch 60 (snd (run 60 ∅ trace)) a_request t))
          = Some retry_after /\ 0 < retry_after).
Proof.
  cbv zeta.
  assert (E : retry_after_of
                (fst (dispatch 60 (snd (run 60 ∅ (replicate 60 (a_request, 0%Q))))
                        a_request (119 # 2)%Q)) = Some 0)
    by (vm_compute; reflexivity).
  split; [|split; [|split; [|split]]].
  - apply Forall_replicate. cbn [snd]. unfold Qle. simpl. lia.
  - vm_compute. reflexivity.
  - vm_compute. reflexivity.
  - exact E.
  - intros (ra & Hra & Hpos). rewrite E in Hra. injection Hra as <-. lia.
Qed.

Lemma C3_sixty_first_request_witness :
  url_path a_request <> "/health" /\
  (∅ : Requests) !!! client_host a_request = [] /\
  length (replicate 60 30%Q) = 60%nat /\
  Forall (fun x => (45 - 60 <= x)%Q /\ (x <= 45)%Q) (replicate 60 30%Q) /\
  exists oldest retry_after,
    head (replicate 60 30%Q) = Some oldest /\
    fst (dispatch 60
           (snd (run 60 ∅ (map (fun ti => (a_request, ti)) (replicate 60 30%Q))))
           a_request 45%Q)
      = JSONResponse 429 "Rate limit exceeded" (limit_message 60) retry_after /\
    retry_after = int (60 - (45 - oldest))%Q /\
    0 <= retry_after /\
    (0 < retry_after <-> (45 - oldest <= 59)%Q).
Proof.
  assert (H1 : url_path a_request <> "/health") by (simpl; discriminate).
  assert (H2 : (∅ : Requests) !!! client_host a_request = []) by reflexivity.
  assert (H3 : length (replicate 60 30%Q) = 60%nat) by reflexivity.
  assert (H4 : Forall (fun x => (45 - 60 <= x)%Q /\ (x <= 45)%Q)
                 (replicate 60 30%Q)).
  { apply Forall_replicate. unfold Qle. simpl. lia. }
  split; [exact H1|]. split; [exact H2|]. split; [exact H3|]. split; [exact H4|].
  exact (proj2 (C3_sixty_first_request ∅ a_request (replicate 60 30%Q) 45%Q
                  H1 H2 H3 H4)).
Defined.

(** A second request one second after the first, under a limit of 1. *)
Lemma C10_rejection_consumes_no_capacity_witness :
  dispatch 1 {[ "203.0.113.7" := [0%Q] ]} a_request 1%Q
    = (JSONResponse 429 "Rate limit exceeded" (limit_message 1) 59,
       {[ "203.0.113.7" := [0%Q] ]}) /\
  ({[ "203.0.113.7" := [0%Q] ]} : Requests) !!! client_host a_request
    = prune (1 - window)%Q
        (({[ "203.0.113.7" := [0%Q] ]} : Requests) !!! client_host a_request) /\
  "198.51.100.2" <> client_host a_request /\
  snd (dispatch 1 {[ "203.0.113.7" := [0%Q] ]} a_request 1%Q) !! "198.51.100.2"
    = ({[ "203.0.113.7" := [0%Q] ]} : Requests) !! "198.51.100.2".
Proof.
  assert (H1 : dispatch 1 {[ "203.0.113.7" := [0%Q] ]} a_request 1%Q
               = (JSONResponse 429 "Rate limit exceeded" (limit_message 1) 59,
                  {[ "203.0.113.7" := [0%Q] ]})) by (vm_compute; reflexivity).
  assert (H2 : "198.51.100.2" <> client_host a_request) by (simpl; discriminate).
  pose proof (C10_rejection_consumes_no_capacity 1
                {[ "203.0.113.7" := [0%Q] ]} a_request 1%Q) as [Hrej Hother].
  split; [exact H1|]. split.
  - exact (proj1 (Hrej _ _ _ _ H1)).
  - split; [exact H2|]. exact (Hother _ H2).
Defined.

End RateLimiterFacts.

(** * Properties of the image normalizer *)

Module NormalizerFacts.

Import Service.

(** C4. A luminance-alpha image takes the branch [background.paste(image)],
    which has no mask: the white canvas is overwritten and the alpha band
    ignored. A black, fully transparent pixel comes out black, not white. *)
Theorem C4_LA_transparent_pixel_not_white (w : World) :
  flatten w Examples.transparent_black_LA =
    Ok {| PIL.mode := "RGB"; PIL.size := (1, 1)%nat;
          PIL.getdata := [[0; 0; 0]] |} /\
  [0; 0; 0] <> [255; 255; 255].
Proof. split; [reflexivity | discriminate]. Qed.

(** The same for every luminance-alpha image: each pixel of the result is
    the luminance of the pixel, whatever its alpha. *)
Lemma flatten_LA (w : World) (image : PIL.Image) :
  PIL.mode image = "LA" ->
  PIL.well_formed image ->
  flatten w image =
    Ok {| PIL.mode := "RGB"; PIL.size := PIL.size image;
          PIL.getdata :=
            map (fun p => [nth 0 p 0; nth 0 p 0; nth 0 p 0]) (PIL.getdata image) |}.
Proof.
  intros Hm [Hlen _]. unfold flatten. rewrite Hm. cbn [String.eqb Ascii.eqb Bool.eqb orb].
  unfold PIL.paste, PIL.new. cbn [PIL.mode PIL.size PIL.getdata]. rewrite Hm.
  f_equal. f_equal. rewrite <- Hlen. unfold PIL.rgb_bands.
  cbn [String.eqb Ascii.eqb Bool.eqb].
  generalize (PIL.getdata image). intros l.
  induction l as [|p l IH]; [done|]. cbn. by rewrite IH.
Qed.

(** [DIV255] rounds the quotient by 255 to the nearest integer. *)
Lemma DIV255_round (x : Z) :
  0 <= x <= 65025 ->
  255 * PIL.DIV255 x - 127 <= x <= 255 * PIL.DIV255 x + 127.
Proof.
  intros H. unfold PIL.DIV255. cbv zeta. rewrite !Z.shiftr_div_pow2 by lia.
  change (2 ^ 8) with 256. Z.div_mod_to_equations. lia.
Qed.

(** Blending toward white: linear in the alpha value, up to rounding. *)
Lemma BLEND8_linear (a c : Z) :
  0 <= a <= 255 -> 0 <= c <= 255 ->
  255 * PIL.BLEND8 a 255 c - 127 <= 255 * (255 - a) + c * a
    <= 255 * PIL.BLEND8 a 255 c + 127.
Proof. intros Ha Hc. unfold PIL.BLEND8. apply DIV255_round. nia. Qed.

Lemma BLEND8_transparent (c : Z) : PIL.BLEND8 0 255 c = 255.
Proof. unfold PIL.BLEND8. by rewrite Z.mul_0_r. Qed.

Lemma BLEND8_opaque (c : Z) : 0 <= c <= 255 -> PIL.BLEND8 255 255 c = c.
Proof.
  intros Hc. pose proof (BLEND8_linear 255 c ltac:(lia) Hc) as H. lia.
Qed.

(** The RGBA branch does composite over white with the alpha band as the
    blend weight. *)
Lemma flatten_RGBA (w : World) (image : PIL.Image) :
  PIL.mode image = "RGBA" ->
  PIL.well_formed image ->
  flatten w image =
    Ok {| PIL.mode := "RGB"; PIL.size := PIL.size image;
          PIL.getdata := map over_white (PIL.getdata image) |}.
Proof.
  intros Hm [Hlen Hpx]. unfold flatten. rewrite Hm.
  cbn [String.eqb Ascii.eqb Bool.eqb orb].
  unfold PIL.split. rewrite Hm. cbn [PIL.getbands String.eqb Ascii.eqb Bool.eqb].
  cbn [length seq map last].
  unfold PIL.paste, PIL.new, PIL.getchannel.
  cbn [PIL.mode PIL.size PIL.getdata]. rewrite Hm.
  f_equal. f_equal. rewrite <- Hlen. rewrite Hm in Hpx.
  cbn [PIL.getbands String.eqb Ascii.eqb Bool.eqb length] in Hpx.
  clear Hlen Hm. induction Hpx as [|p l [Hp _] _ IH]; [done|].
  cbn [length replicate map zip zip_with fst snd]. rewrite <- IH.
  f_equal. destruct p as [|r [|g [|b [|a [|? ?]]]]]; try discriminate Hp.
  reflexivity.
Qed.

Example flatten_three_reds (w : World) :
  flatten w Examples.three_reds_RGBA =
    Ok {| PIL.mode := "RGB"; PIL.size := (3, 1)%nat;
          PIL.getdata := [[255; 255; 255]; [200; 0; 0]; [227; 127; 127]] |}.
Proof. reflexivity. Qed.

(** In particular a fully transparent pixel becomes white and a fully
    opaque one keeps its colour. *)
Lemma over_white_transparent (r g b : Z) :
  over_white [r; g; b; 0] = [255; 255; 255].
Proof. unfold over_white. cbn [nth]. by rewrite !BLEND8_transparent. Qed.

Lemma over_white_opaque (r g b : Z) :
  0 <= r <= 255 -> 0 <= g <= 255 -> 0 <= b <= 255 ->
  over_white [r; g; b; 255] = [r; g; b].
Proof. intros. unfold over_white. cbn [nth]. by rewrite !BLEND8_opaque. Qed.

(** C5. Normalization is idempotent on an RGB image: when the bytes decode
    to a three-channel RGB image, and decoding the PNG that is saved for this
    image gives the image back (PNG is lossless), the normalizer succeeds and
    normalizing its output gives the same bytes again. *)
Theorem C5_normalize_RGB_idempotent (w : World) (image_data : bytes)
    (image : PIL.Image) :
  Image_open w image_data = Ok image ->
  PIL.mode image = "RGB" ->
  Image_open w (save_PNG w image) = Ok image ->
  exists processed,
    _process_image_for_openai w image_data = Ok processed /\
    _process_image_for_openai w processed = Ok processed.
Proof.
  intros Hopen Hmode Hlossless.
  assert (Hflat : flatten w image = Ok image).
  { unfold flatten. by rewrite Hmode. }
  exists (save_PNG w image). unfold _process_image_for_openai.
  by rewrite Hopen, Hlossless, Hflat.
Qed.

Lemma C5_normalize_RGB_idempotent_witness :
  Image_open Examples.world [Byte.x01] = Ok Examples.one_pixel_RGB /\
  PIL.mode Examples.one_pixel_RGB = "RGB" /\
  Image_open Examples.world (save_PNG Examples.world Examples.one_pixel_RGB)
    = Ok Examples.one_pixel_RGB /\
  exists processed,
    _process_image_for_openai Examples.world [Byte.x01] = Ok processed /\
    _process_image_for_openai Examples.world processed = Ok processed.
Proof.
  assert (H1 : Image_open Examples.world [Byte.x01] = Ok Examples.one_pixel_RGB)
    by reflexivity.
  assert (H2 : PIL.mode Examples.one_pixel_RGB = "RGB") by reflexivity.
  assert (H3 : Image_open Examples.world
                 (save_PNG Examples.world Examples.one_pixel_RGB)
               = Ok Examples.one_pixel_RGB) by reflexivity.
  split; [exact H1|]. split; [exact H2|]. split; [exact H3|].
  exact (C5_normalize_RGB_idempotent Examples.world [Byte.x01]
           Examples.one_pixel_RGB H1 H2 H3).
Defined.

End NormalizerFacts.

(** * Properties of the provider gateway *)

Module ServiceFacts.

Import Models Service.

Lemma bind_Ok_inv {A B} (m : M A) (k : A -> M B) (s s' : Sys) (b : B) :
  bind m k s = (Ok b, s') ->
  exists a s1, m s = (Ok a, s1) /\ k a s1 = (Ok b, s').
Proof.
  unfold bind. destruct (m s) as [[a|e] s1]; [eauto | discriminate].
Qed.


Lemma bind_Raise {A B} (m : M A) (k : A -> M B) (s s1 : Sys) (e : string) :
  m s = (Raise e, s1) -> bind m k s = (Raise e, s1).
Proof. unfold bind. by intros ->. Qed.

Lemma bind_ext {A B} (m : M A) (k1 k2 : A -> M B) (s : Sys) :
  (forall a s1, k1 a s1 = k2 a s1) -> bind m k1 s = bind m k2 s.
Proof. intros H. unfold bind. destruct (m s) as [[a|e] s1]; [apply H | done]. Qed.

Lemma bind_ext_l {A B} (m1 m2 : M A) (k : A -> M B) (s : Sys) :
  m1 s = m2 s -> bind m1 k s = bind m2 k s.
Proof. unfold bind. by intros ->. Qed.

(** The body of the reference-guided call once the client is configured and
    the first reference has been downloaded and normalized. *)
Lemma reference_body_downloaded (w : World) (request : ReferenceGenerationRequest.t)
    (sys : Sys) (u : string) (rest : list string) (raw processed : bytes) :
  client w = true ->
  ReferenceGenerationRequest.image_urls request = u :: rest ->
  _download_image_from_url w u = Ok (raw, processed) ->
  let path := temp_path (strftime_now w (clock sys)) in
  let after := {| files := delete path (files sys); clock := S (clock sys) |} in
  let ref_count := length (ReferenceGenerationRequest.image_urls request) in
  let enhanced_prompt :=
    _create_enhanced_prompt (ReferenceGenerationRequest.prompt request) ref_count in
  generate_with_reference_urls_body w request sys =
    match images_edit w
            (model_value (ReferenceGenerationRequest.model request))
            processed enhanced_prompt
            (size_value (ReferenceGenerationRequest.size request))
            (ReferenceGenerationRequest.n request) with
    | Raise e => (Raise e, after)
    | Ok response =>
        match unified_images w request (enumerate response) after with
        | (Raise e, sys') => (Raise e, sys')
        | (Ok images, sys') =>
            (Ok {| success := true;
                   message := "Successfully generated " +:+ pretty (length images) +:+
                              " image(s) using " +:+ pretty ref_count +:+
                              " reference(s)";
                   images := Some images;
                   request_params := Some
                     [("model", PyStr (model_value (ReferenceGenerationRequest.model request)));
                      ("original_prompt", PyStr (ReferenceGenerationRequest.prompt request));
                      ("enhanced_prompt", PyStr enhanced_prompt);
                      ("size", PyStr (size_value (ReferenceGenerationRequest.size request)));
                      ("n", PyInt (ReferenceGenerationRequest.n request));
                      ("reference_count", PyInt (Z.of_nat ref_count));
                      ("reference_urls", PyList (ReferenceGenerationRequest.image_urls request));
                      ("note", PyStr "Quality parameter not supported by edit endpoint")];
                   error := None |}, sys')
        end
    end.
Proof.
  intros Hc Hu Hd path after ref_count enhanced_prompt.
  unfold generate_with_reference_urls_body. rewrite Hc, Hu. cbn [negb].
  rewrite <- Hu. fold ref_count enhanced_prompt. rewrite Hd.
  unfold bind at 1. unfold lift at 1. cbn [snd].
  unfold bind at 1. unfold now at 1. fold path.
  unfold bind at 1. unfold write_file at 1. cbn [files clock].
  unfold bind at 1. unfold try_finally at 1.
  unfold bind at 1. unfold read_file at 1. cbn [files clock].
  rewrite lookup_insert_eq. unfold lift at 1.
  unfold remove_quietly. cbn [files clock]. rewrite delete_insert_eq. fold after.
  destruct (images_edit w _ processed enhanced_prompt _ _) as [response|e]; [|done].
  unfold bind at 1. destruct (unified_images w request (enumerate response) after)
    as [[images|e] sys']; done.
Qed.

Lemma append_assoc (s1 s2 s3 : string) :
  (s1 +:+ s2) +:+ s3 = s1 +:+ (s2 +:+ s3).
Proof.
  induction s1 as [|c s1 IH]; [done|].
  change (String c ((s1 +:+ s2) +:+ s3) = String c (s1 +:+ (s2 +:+ s3))).
  by rewrite IH.
Qed.

(** The temporary file and the saved results have different names. *)
Lemma temp_path_not_saved (stamp name : string) :
  temp_path stamp <> path_join GENERATED_IMAGES_DIR ("reference_" +:+ name).
Proof. unfold temp_path, path_join, GENERATED_IMAGES_DIR. simpl. discriminate. Qed.

(** Saving a result writes one file, named after the prefix. *)
Lemma save_and_append_files (w : World) (save : bool) (prefix : string)
    (format : ImageFormat) (idx : nat) (image_info : ImageInfo.t) (s : Sys)
    (p : string) :
  (forall name, p <> path_join GENERATED_IMAGES_DIR (prefix +:+ name)) ->
  files (snd (save_and_append w save prefix format idx image_info s)) !! p
    = files s !! p.
Proof.
  intros Hp. unfold save_and_append. destruct save; [|done].
  unfold bind at 1. unfold now at 1.
  unfold bind at 1. unfold _save_image_to_disk.
  unfold bind at 1. unfold lift.
  destruct (match ImageInfo.b64_json image_info with
            | Some text => b64decode w text
            | None => _
            end) as [image_data|e]; [|done].
  unfold bind, write_file, ret. cbn [snd files].
  rewrite lookup_insert_ne; [done|].
  intros E. apply (Hp (strftime_now w (clock s) +:+ "_" +:+ pretty idx
                       +:+ "." +:+ format_value format)).
  rewrite <- E. f_equal. by rewrite !append_assoc.
Qed.

Lemma unified_images_files (w : World) (request : ReferenceGenerationRequest.t)
    (p : string) :
  (forall name, p <> path_join GENERATED_IMAGES_DIR ("reference_" +:+ name)) ->
  forall (data : list (nat * ImageData)) (s : Sys),
    files (snd (unified_images w request data s)) !! p = files s !! p.
Proof.
  intros Hp. induction data as [|[idx item] data IH]; intros s; [done|].
  assert (Happend : forall b64_data,
    files (snd ((do image_info <-
                   save_and_append w (ReferenceGenerationRequest.save_to_disk request)
                     "reference_" (ReferenceGenerationRequest.response_format request) idx
                     {| ImageInfo.index := idx;
                        ImageInfo.b64_json := Some b64_data;
                        ImageInfo.revised_prompt := None;
                        ImageInfo.filename := None;
                        ImageInfo.file_path := None |};
                 do images <- unified_images w request data;
                 ret (image_info :: images)) s)) !! p = files s !! p).
  { intros b64_data. unfold bind at 1.
    pose proof (save_and_append_files w
                  (ReferenceGenerationRequest.save_to_disk request) "reference_"
                  (ReferenceGenerationRequest.response_format request) idx
                  {| ImageInfo.index := idx;
                     ImageInfo.b64_json := Some b64_data;
                     ImageInfo.revised_prompt := None;
                     ImageInfo.filename := None;
                     ImageInfo.file_path := None |} s p Hp) as Hsave.
    destruct (save_and_append _ _ _ _ _ _ s) as [[image_info|e] s1];
      cbn [snd] in *; [|done].
    unfold bind. specialize (IH s1).
    destruct (unified_images w request data s1) as [[images|e] s2];
      cbn [snd] in *; unfold ret; cbn [snd]; congruence. }
  cbn [unified_images].
  destruct (truthy (url item)).
  - unfold bind at 1. unfold lift at 1.
    destruct (get w (default "" (url item))) as [content|e]; [|done].
    apply Happend.
  - destruct (truthy (b64_json item)); [apply Happend | apply IH].
Qed.


(** The body of the reference-guided call when the first reference cannot be
    downloaded or normalized. *)
Lemma reference_body_download_fails (w : World)
    (request : ReferenceGenerationRequest.t) (sys : Sys) (u : string)
    (rest : list string) (e : string) :
  client w = true ->
  ReferenceGenerationRequest.image_urls request = u :: rest ->
  _download_image_from_url w u = Raise e ->
  generate_with_reference_urls_body w request sys = (Raise e, sys).
Proof.
  intros Hc Hu Hd. unfold generate_with_reference_urls_body.
  rewrite Hc, Hu. cbn [negb]. by rewrite Hd.
Qed.

(** A failed fetch of the first reference is the failure of the call. *)
Lemma reference_fetch_fails (w : World) (request : ReferenceGenerationRequest.t)
    (sys : Sys) (u : string) (rest : list string) (e : string) :
  client w = true ->
  ReferenceGenerationRequest.image_urls request = u :: rest ->
  get_with_headers w u = Raise e ->
  generate_with_reference_urls w request sys
    = (failure e "Failed to generate image with references", sys).
Proof.
  intros Hc Hu He. unfold generate_with_reference_urls, try_except.
  rewrite (reference_body_download_fails w request sys u rest e); [done..|].
  unfold _download_image_from_url. by rewrite He.
Qed.

(** An outcome is a success with its images or a failure with its error
    text. *)
Lemma generate_image_shape (w : World) (request : ImageGenerationRequest.t)
    (sys : Sys) :
  let outcome := fst (generate_image w request sys) in
  (success outcome = true /\ error outcome = None /\ is_Some (images outcome)) \/
  (exists e message, outcome = failure e message).
Proof.
  cbv zeta. unfold generate_image, try_except.
  destruct (generate_image_body w request sys) as [[outcome|e] sys'] eqn:E;
    cbn [fst]; [|by right; eexists _, _].
  unfold generate_image_body in E. destruct (client w); cbn [negb] in E.
  - apply bind_Ok_inv in E as (response & s1 & _ & E).
    apply bind_Ok_inv in E as (images & s2 & _ & E).
    unfold ret in E. injection E as <- _. left. cbn. eauto.
  - unfold ret in E. injection E as <- _. right. by eexists _, _.
Qed.

Lemma generate_with_reference_urls_shape (w : World)
    (request : ReferenceGenerationRequest.t) (sys : Sys) :
  let outcome := fst (generate_with_reference_urls w request sys) in
  (success outcome = true /\ error outcome = None /\ is_Some (images outcome)) \/
  (exists e message, outcome = failure e message).
Proof.
  cbv zeta. unfold generate_with_reference_urls, try_except.
  destruct (generate_with_reference_urls_body w request sys)
    as [[outcome|e] sys'] eqn:E; cbn [fst]; [|by right; eexists _, _].
  unfold generate_with_reference_urls_body in E.
  destruct (client w); cbn [negb] in E.
  - destruct (ReferenceGenerationRequest.image_urls request) as [|u rest].
    { unfold ret in E. injection E as <- _. right. by eexists _, _. }
    apply bind_Ok_inv in E as (downloaded & s1 & _ & E).
    apply bind_Ok_inv in E as (stamp & s2 & _ & E).
    apply bind_Ok_inv in E as (written & s3 & _ & E).
    apply bind_Ok_inv in E as (response & s4 & _ & E).
    apply bind_Ok_inv in E as (images & s5 & _ & E).
    unfold ret in E. injection E as <- _. left. cbn. eauto.
  - unfold ret in E. injection E as <- _. right. by eexists _, _.
Qed.


(** Result unification never uses the fetcher of reference images. *)
Lemma unified_images_fetcher (w : World) (f : string -> Exc bytes)
    (request : ReferenceGenerationRequest.t) :
  forall (data : list (nat * ImageData)) (s : Sys),
    unified_images (with_reference_fetcher w f) request data s
    = unified_images w request data s.
Proof.
  induction data as [|[idx item] data IH]; intros s; [done|].
  cbn [unified_images].
  change (save_and_append (with_reference_fetcher w f)) with (save_and_append w).
  change (get (with_reference_fetcher w f)) with (get w).
  change (b64encode (with_reference_fetcher w f)) with (b64encode w).
  assert (Happend : forall info s0,
    (do image_info <-
       save_and_append w (ReferenceGenerationRequest.save_to_disk request)
         "reference_" (ReferenceGenerationRequest.response_format request) idx info;
     do images <- unified_images (with_reference_fetcher w f) request data;
     ret (image_info :: images)) s0
    = (do image_info <-
         save_and_append w (ReferenceGenerationRequest.save_to_disk request)
           "reference_" (ReferenceGenerationRequest.response_format request) idx info;
       do images <- unified_images w request data;
       ret (image_info :: images)) s0).
  { intros info s0. apply bind_ext. intros image_info s1.
    apply bind_ext_l, IH. }
  destruct (truthy (url item)).
  - apply bind_ext. intros content s1. apply Happend.
  - destruct (truthy (b64_json item)); [apply Happend | apply IH].
Qed.

(** C6, as the code has it. Of the reference URLs of a call only the first
    is fetched. When fetching the first URL fails, the call returns a single
    failure outcome carrying the fetch error, with no images; what fetching
    any later URL would do, failure included, has no effect on the call. *)
Theorem C6_only_first_reference_fetched (w : World)
    (request : ReferenceGenerationRequest.t) (sys : Sys)
    (u : string) (rest : list string) :
  client w = true ->
  ReferenceGenerationRequest.image_urls request = u :: rest ->
  (forall e,
      get_with_headers w u = Raise e ->
      generate_with_reference_urls w request sys
        = (failure e "Failed to generate image with references", sys) /\
      success (fst (generate_with_reference_urls w request sys)) = false /\
      images (fst (generate_with_reference_urls w request sys)) = None) /\
  (forall fetch,
      fetch u = get_with_headers w u ->
      generate_with_reference_urls (with_reference_fetcher w fetch) request sys
      = generate_with_reference_urls w request sys).
Proof.
  intros Hc Hu. split.
  - intros e He.
    pose proof (reference_fetch_fails w request sys u rest e Hc Hu He) as H.
    by rewrite H.
  - intros fetch Hfetch.
    assert (Hd : _download_image_from_url (with_reference_fetcher w fetch) u
                 = _download_image_from_url w u).
    { unfold _download_image_from_url. cbn [get_with_headers with_reference_fetcher].
      by rewrite Hfetch. }
    unfold generate_with_reference_urls, try_except.
    destruct (_download_image_from_url w u) as [[raw processed]|e] eqn:Ed.
    + rewrite (reference_body_downloaded (with_reference_fetcher w fetch)
                 request sys u rest raw processed); [|done..].
      rewrite (reference_body_downloaded w request sys u rest raw processed);
        [|done..].
      cbv zeta. cbn [strftime_now images_edit with_reference_fetcher].
      destruct (images_edit w _ processed _ _ _) as [response|e]; [|done].
      by rewrite unified_images_fetcher.
    + rewrite (reference_body_download_fails (with_reference_fetcher w fetch)
                 request sys u rest e); [|done..].
      by rewrite (reference_body_download_fails w request sys u rest e).
Qed.









(** *** The properties in the small world *)

Import Examples.

(** The second of two references cannot be fetched, and the call succeeds
    with one image. *)
Lemma C6_counterexample :
  get_with_headers world second_url
    = Raise "404 Client Error: Not Found for url: https://example.com/missing.png" /\
  ReferenceGenerationRequest.image_urls (two_references 1 false)
    = [first_url; second_url] /\
  success (fst (generate_with_reference_urls world (two_references 1 false) fresh))
    = true /\
  length <$> images (fst (generate_with_reference_urls world
                            (two_references 1 false) fresh)) = Some 1%nat.
Proof. repeat split; vm_compute; reflexivity. Qed.

Lemma C6_only_first_reference_fetched_witness :
  client world = true /\
  ReferenceGenerationRequest.image_urls missing_first = [second_url; first_url] /\
  get_with_headers world second_url
    = Raise "404 Client Error: Not Found for url: https://example.com/missing.png" /\
  generate_with_reference_urls world missing_first fresh
    = (failure "404 Client Error: Not Found for url: https://example.com/missing.png"
         "Failed to generate image with references", fresh) /\
  generate_with_reference_urls
    (with_reference_fetcher world (fun _ => get_with_headers world second_url))
    missing_first fresh
  = generate_with_reference_urls world missing_first fresh.
Proof.
  assert (H1 : client world = true) by reflexivity.
  assert (H2 : ReferenceGenerationRequest.image_urls missing_first
               = [second_url; first_url]) by reflexivity.
  assert (H3 : get_with_headers world second_url
               = Raise "404 Client Error: Not Found for url: https://example.com/missing.png")
    by (vm_compute; reflexivity).
  pose proof (C6_only_first_reference_fetched world missing_first fresh
                second_url [first_url] H1 H2) as [Hfail Hsame].
  split; [exact H1|]. split; [exact H2|]. split; [exact H3|]. split.
  - exact (proj1 (Hfail _ H3)).
  - exact (Hsame (fun _ => get_with_headers world second_url) eq_refl).
Defined.




End ServiceFacts.

(** * Properties of runs of the rate limiter *)

Module RateLimiterRunFacts.

Import RateLimiter RateLimiterFacts RateLimiterRuns.

Lemma checked_for_true (k : string) (request : Request) :
  checked_for k request = true <->
  url_path request <> "/health" /\ client_host request = k.
Proof.
  unfold checked_for. rewrite andb_true_iff, negb_true_iff.
  by rewrite String.eqb_neq, String.eqb_eq.
Qed.

(** A request that is not checked for [k] leaves the record of [k] alone. *)
Lemma dispatch_unchecked (limit : Z) (k : string) (requests : Requests)
    (request : Request) (t : Q) :
  checked_for k request = false ->
  snd (dispatch limit requests request t) !!! k = requests !!! k.
Proof.
  intros Hc.
  destruct (String.eqb_spec (url_path request) "/health") as [Hp|Hp].
  { by rewrite dispatch_health. }
  assert (Hk : client_host request <> k).
  { intros Hk. apply not_true_iff_false in Hc. apply Hc.
    by apply checked_for_true. }
  rewrite dispatch_checked by done. cbn zeta.
  destruct (limit <=? _); [destruct (prune _ _)|]; cbn [snd];
    by rewrite lookup_total_insert_ne.
Qed.

(** The loop pops a prefix of readings older than the cutoff. *)
Lemma prune_split (cutoff : Q) (d : list Q) :
  exists popped, d = popped ++ prune cutoff d /\
                 Forall (fun x => (x < cutoff)%Q) popped.
Proof.
  induction d as [|x d (popped & Hd & Hp)]; [by exists []|].
  cbn [prune]. destruct (Qltb x cutoff) eqn:E.
  - exists (x :: popped). split; [by rewrite Hd at 1|].
    constructor; [by apply Qltb_true | done].
  - by exists [].
Qed.

Lemma prune_length (cutoff : Q) (d : list Q) :
  (length (prune cutoff d) <= length d)%nat.
Proof. apply suffix_length, prune_suffix. Qed.

Lemma filter_none {A} (f : A -> bool) (l : list A) :
  Forall (fun x => f x = false) l -> List.filter f l = [].
Proof. induction 1 as [|x l Hx _ IH]; [done|]. cbn. by rewrite Hx. Qed.

Lemma in_window_true (s x : Q) :
  in_window s x = true <-> (s - 60 <= x)%Q /\ (x <= s)%Q.
Proof.
  unfold in_window, window. by rewrite andb_true_iff, !Qle_bool_iff.
Qed.

Lemma in_window_old (s c : Q) (l : list Q) :
  (c <= s - 60)%Q -> Forall (fun d => (d < c)%Q) l ->
  List.filter (in_window s) l = [].
Proof.
  intros Hc Hl. apply filter_none. eapply Forall_impl; [exact Hl|].
  intros d Hd. apply not_true_iff_false. rewrite in_window_true.
  intros [Hlo _]. cbv beta in Hd. lra.
Qed.

(** One check keeps the state of client [k] within the limit. *)
Lemma dispatch_window_bounded (limit : Z) (k : string) (T t : Q) (A : list Q)
    (requests : Requests) (request : Request) :
  window_bounded limit k T A requests -> (T <= t)%Q ->
  window_bounded limit k t
    (A ++ if checked_for k request &&
             passed_on (fst (dispatch limit requests request t))
          then [t] else [])
    (snd (dispatch limit requests request t)).
Proof.
  intros ((D & HA & HD) & Hlen & Hwin) HT.
  assert (HD' : Forall (fun d => (d < t - window)%Q) D).
  { eapply Forall_impl; [exact HD|]. intros d Hd. unfold window in *. lra. }
  destruct (checked_for k request) eqn:Hc; cbn [andb].
  2:{ rewrite app_nil_r. split; [|split; [|done]].
      - exists D. by rewrite dispatch_unchecked.
      - by rewrite dispatch_unchecked. }
  apply checked_for_true in Hc as [Hp <-].
  rewrite dispatch_checked by done. cbn zeta.
  set (key := client_host request) in *.
  destruct (prune_split (t - window)%Q (requests !!! key))
    as (popped & Hsplit & Hpopped).
  pose proof (prune_length (t - window)%Q (requests !!! key)) as Hshorter.
  set (d := prune (t - window)%Q (requests !!! key)) in *.
  assert (Hrejected : window_bounded limit key t A (<[key := d]> requests)).
  { split; [|split; [|done]].
    - exists (D ++ popped). rewrite lookup_total_insert_eq. split.
      + by rewrite <- app_assoc, <- Hsplit.
      + by apply Forall_app.
    - rewrite lookup_total_insert_eq. lia. }
  destruct (Z.leb_spec limit (Z.of_nat (length d))) as [Hfull|Hroom].
  { destruct d; cbn [fst snd passed_on]; by rewrite app_nil_r. }
  cbn [fst snd passed_on]. split; [|split].
  - exists (D ++ popped). rewrite lookup_total_insert_eq. split.
    + rewrite HA, Hsplit at 1. by rewrite <- !app_assoc.
    + by apply Forall_app.
  - rewrite lookup_total_insert_eq, length_app. cbn [length]. lia.
  - intros s. rewrite List.filter_app. cbn [List.filter].
    destruct (in_window s t) eqn:Ein.
    + apply in_window_true in Ein as [Hlo Hhi].
      rewrite HA, Hsplit, !List.filter_app.
      rewrite (in_window_old s (t - window)%Q D) by (unfold window; lra || done).
      rewrite (in_window_old s (t - window)%Q popped)
        by (unfold window; lra || done).
      cbn [app]. rewrite length_app. cbn [length].
      pose proof (List.filter_length_le (in_window s) d). lia.
    + rewrite app_nil_r. apply Hwin.
Qed.

Lemma admitted_cons (k : string) (request : Request) (t : Q)
    (trace : list (Request * Q)) (response : Response)
    (responses : list Response) :
  admitted k ((request, t) :: trace) (response :: responses)
  = (if checked_for k request && passed_on response then [t] else [])
      ++ admitted k trace responses.
Proof. cbn [admitted]. by destruct (checked_for k request && passed_on response). Qed.

(** A run whose clock never goes back keeps the state of client [k] within
    the limit. *)
Lemma run_window_bounded (limit : Z) (k : string) (trace : list (Request * Q)) :
  forall (T : Q) (A : list Q) (requests : Requests),
    window_bounded limit k T A requests ->
    nondecreasing (T :: map snd trace) ->
    exists T',
      window_bounded limit k T'
        (A ++ admitted k trace (fst (run limit requests trace)))
        (snd (run limit requests trace)).
Proof.
  induction trace as [|[request t] trace IH]; intros T A requests Hb Hs.
  { exists T. cbn. by rewrite app_nil_r. }
  rewrite run_cons_pair. cbn [fst snd]. rewrite admitted_cons, app_assoc.
  cbn [map snd] in Hs. destruct Hs as [HT Hs].
  apply (IH t); [|done]. by apply dispatch_window_bounded with T.
Qed.

Lemma window_bounded_empty (limit : Z) (k : string) (T : Q) :
  window_bounded limit k T [] ∅.
Proof.
  split; [|split].
  - exists []. by rewrite lookup_total_empty.
  - rewrite lookup_total_empty. cbn. lia.
  - intros s. cbn. lia.
Qed.

(** X1. The limit holds over every window: along a run from the empty
    initial state whose clock readings never decrease, at most [limit]
    requests of one client (none, for a limit below 0) are admitted within
    any 60 seconds, the ends of the interval included. *)
Theorem admissions_per_window_bounded (limit : Z) (trace : list (Request * Q))
    (k : string) (s : Q) :
  nondecreasing (map snd trace) ->
  Z.of_nat (length (List.filter (in_window s)
                      (admitted k trace (fst (run limit ∅ trace)))))
    <= Z.max 0 limit.
Proof.
  intros Hs.
  destruct trace as [|[request t0] trace'] eqn:E; [cbn; lia|]. rewrite <- E in *.
  destruct (run_window_bounded limit k trace t0 [] ∅) as (T' & _ & _ & Hwin).
  - apply window_bounded_empty.
  - rewrite E. cbn [map snd]. split; [apply Qle_refl|]. by rewrite E in Hs.
  - apply Hwin.
Qed.

(** One check keeps every record within the limit, whatever the clock
    reads. *)
Lemma dispatch_records_bounded (limit : Z) (requests : Requests)
    (request : Request) (t : Q) :
  records_bounded limit requests ->
  records_bounded limit (snd (dispatch limit requests request t)).
Proof.
  intros Hb k.
  destruct (checked_for k request) eqn:Hc.
  2:{ by rewrite dispatch_unchecked. }
  apply checked_for_true in Hc as [Hp <-].
  rewrite dispatch_checked by done. cbn zeta.
  pose proof (prune_length (t - window)%Q (requests !!! client_host request)).
  specialize (Hb (client_host request)).
  destruct (Z.leb_spec limit
              (Z.of_nat (length (prune (t - window)%Q
                                   (requests !!! client_host request)))));
    [destruct (prune _ _) eqn:E|]; cbn [snd];
    rewrite lookup_total_insert_eq; rewrite ?length_app; cbn [length] in *; lia.
Qed.

Lemma run_records_bounded (limit : Z) (trace : list (Request * Q)) :
  forall requests : Requests,
    records_bounded limit requests ->
    records_bounded limit (snd (run limit requests trace)).
Proof.
  induction trace as [|[request t] trace IH]; intros requests Hb; [done|].
  rewrite run_cons. by apply IH, dispatch_records_bounded.
Qed.

Lemma records_bounded_empty (limit : Z) : records_bounded limit ∅.
Proof. intros k. rewrite lookup_total_empty. cbn. lia. Qed.

(** X2. However the clock behaves, no record of a run from the empty initial
    state ever holds more than [limit] timestamps (none, for a limit
    below 0): the memory held per client is bounded by the limit. *)
Theorem record_never_exceeds_limit (limit : Z) (trace : list (Request * Q))
    (k : string) :
  Z.of_nat (length (snd (run limit ∅ trace) !!! k)) <= Z.max 0 limit.
Proof. apply run_records_bounded, records_bounded_empty. Qed.

(** Truncation stays within one of its argument. *)
Lemma int_upper (x : Q) : (x < inject_Z (int x) + 1)%Q.
Proof.
  destruct x as [a b]. unfold int, Qlt, Qplus, inject_Z. cbn [Qnum Qden].
  pose proof (Z.quot_rem' a (Z.pos b)) as Hqr.
  pose proof (Z.rem_bound_abs a (Z.pos b) ltac:(lia)) as Hr.
  nia.
Qed.

Lemma int_le (x : Q) (c : Z) :
  (0 <= x)%Q -> (x <= inject_Z c)%Q -> int x <= c.
Proof.
  destruct x as [a b]. unfold int, Qle, inject_Z. cbn [Qnum Qden].
  intros Ha Hc. apply Z.quot_le_upper_bound; lia.
Qed.

(** X3. A client that was answered 429 and comes back once [retry_after]
    seconds and one more have passed is let through, at any state the
    limiter can reach from its empty initial state. *)
Theorem retry_after_one_more_second_admitted (limit : Z)
    (trace : list (Request * Q)) (request : Request) (t t' : Q)
    (status retry_after : Z) (error message : string) (requests1 : Requests) :
  dispatch limit (snd (run limit ∅ trace)) request t
    = (JSONResponse status error message retry_after, requests1) ->
  (t + inject_Z retry_after + 1 <= t')%Q ->
  fst (dispatch limit requests1 request t') = CallNext.
Proof.
  intros Hrej Hwait.
  destruct (String.eqb_spec (url_path request) "/health") as [Hp|Hp].
  { by rewrite dispatch_health in Hrej. }
  pose proof (record_bound := run_records_bounded limit trace ∅
                                (records_bounded_empty limit)
                                (client_host request)).
  rewrite dispatch_checked in Hrej by done. cbn zeta in Hrej.
  pose proof (prune_length (t - window)%Q
                (snd (run limit ∅ trace) !!! client_host request)) as Hshorter.
  destruct (Z.leb_spec limit
              (Z.of_nat (length (prune (t - window)%Q
                 (snd (run limit ∅ trace) !!! client_host request)))))
    as [Hfull|Hroom]; [|discriminate].
  destruct (prune _ _) as [|oldest d'] eqn:Ed; [discriminate|].
  injection Hrej as _ _ _ Hra <-. cbn [length] in *.
  rewrite dispatch_checked by done. cbn zeta.
  rewrite lookup_total_insert_eq.
  assert (Hold : (oldest < t' - window)%Q).
  { pose proof (int_upper (window - (t - oldest))%Q) as Hup.
    rewrite Hra in Hup. unfold window in *. lra. }
  cbn [prune]. apply Qltb_true in Hold. rewrite Hold.
  pose proof (prune_length (t' - window)%Q d').
  destruct (Z.leb_spec limit (Z.of_nat (length (prune (t' - window)%Q d'))));
    [lia | done].
Qed.

(** The state a run has reached is in arrival order when the clock never
    went back. *)
Lemma reachable_ordered (limit : Z) (trace : list (Request * Q)) (t : Q) :
  nondecreasing (map snd trace ++ [t]) ->
  exists T', (T' <= t)%Q /\ ordered T' (snd (run limit ∅ trace)).
Proof.
  intros Hs. destruct (map snd trace ++ [t]) as [|t0 ts] eqn:E.
  { by destruct (map snd trace). }
  apply (run_ordered limit trace t0 t); [apply ordered_empty|].
  rewrite E. split; [apply Qle_refl | done].
Qed.

(** X4. Along a run whose clock readings never decrease, the [retry_after]
    of a 429 lies between 0 and 60 seconds. *)
Theorem retry_after_between_0_and_60 (limit : Z) (trace : list (Request * Q))
    (request : Request) (t : Q) (status retry_after : Z)
    (error message : string) (requests1 : Requests) :
  nondecreasing (map snd trace ++ [t]) ->
  dispatch limit (snd (run limit ∅ trace)) request t
    = (JSONResponse status error message retry_after, requests1) ->
  0 <= retry_after <= 60.
Proof.
  intros Hs Hrej.
  destruct (reachable_ordered limit trace t Hs) as (T' & HT' & Ho).
  destruct (String.eqb_spec (url_path request) "/health") as [Hp|Hp].
  { by rewrite dispatch_health in Hrej. }
  rewrite dispatch_checked in Hrej by done. cbn zeta in Hrej.
  destruct (Ho (client_host request)) as [_ Hbelow].
  pose proof (prune_head (t - window)%Q
                (snd (run limit ∅ trace) !!! client_host request)) as Hhead.
  destruct (prune_suffix (t - window)%Q
              (snd (run limit ∅ trace) !!! client_host request)) as [pre Hpre].
  destruct (limit <=? _); [|discriminate].
  destruct (prune _ _) as [|oldest d'] eqn:Ed; [discriminate|].
  injection Hrej as _ _ _ <- _.
  specialize (Hhead oldest eq_refl).
  rewrite Hpre in Hbelow. apply Forall_app in Hbelow as [_ Hbelow].
  apply Forall_cons in Hbelow as [Hbelow _]. unfold window in *. split.
  - apply int_nonneg. lra.
  - apply int_le; [lra|]. change (inject_Z 60) with 60%Q. lra.
Qed.

(** A check of client [k] looks at the record of [k] only. *)
Lemma dispatch_same_record (limit : Z) (k : string) (requests1 requests2 : Requests)
    (request : Request) (t : Q) :
  checked_for k request = true ->
  requests1 !!! k = requests2 !!! k ->
  fst (dispatch limit requests1 request t)
    = fst (dispatch limit requests2 request t) /\
  snd (dispatch limit requests1 request t) !!! k
    = snd (dispatch limit requests2 request t) !!! k.
Proof.
  intros Hc Hsame. apply checked_for_true in Hc as [Hp <-].
  rewrite !dispatch_checked by done. cbn zeta. rewrite Hsame.
  destruct (limit <=? _); [destruct (prune _ _)|]; cbn [fst snd];
    by rewrite !lookup_total_insert_eq.
Qed.

Lemma run_isolated (limit : Z) (k : string) (trace : list (Request * Q)) :
  forall requests1 requests2 : Requests,
    requests1 !!! k = requests2 !!! k ->
    responses_for k trace (fst (run limit requests1 trace))
      = fst (run limit requests2 (restrict k trace)) /\
    snd (run limit requests1 trace) !!! k
      = snd (run limit requests2 (restrict k trace)) !!! k.
Proof.
  induction trace as [|[request t] trace IH]; intros requests1 requests2 Hsame.
  { done. }
  rewrite run_cons_pair. cbn [fst snd responses_for].
  unfold restrict. cbn [List.filter fst]. fold (restrict k trace).
  destruct (checked_for k request) eqn:Hc.
  - rewrite run_cons_pair. cbn [fst snd].
    destruct (dispatch_same_record limit k requests1 requests2 request t Hc Hsame)
      as [Hresp Hrec].
    destruct (IH _ _ Hrec) as [IH1 IH2]. by rewrite Hresp, IH1, IH2.
  - apply IH. by rewrite dispatch_unchecked.
Qed.

(** X5. Clients are served independently of each other, and of health
    checks: the answers a client gets, and the record kept for it, are those
    of the run in which only its own checked requests are made. *)
Theorem clients_are_isolated (limit : Z) (k : string)
    (trace : list (Request * Q)) :
  responses_for k trace (fst (run limit ∅ trace))
    = fst (run limit ∅ (restrict k trace)) /\
  snd (run limit ∅ trace) !!! k
    = snd (run limit ∅ (restrict k trace)) !!! k.
Proof. by apply run_isolated. Qed.

Lemma nondecreasing_app_l (l1 l2 : list Q) :
  nondecreasing (l1 ++ l2) -> nondecreasing l1.
Proof.
  induction l1 as [|x l1 IH]; [done|]. intros H.
  destruct l1 as [|y l1]; [done|]. destruct H as [Hxy H]. split; [done|].
  by apply IH.
Qed.

Lemma filter_all {A} (f : A -> bool) (l : list A) :
  Forall (fun x => f x = true) l -> List.filter f l = l.
Proof. induction 1 as [|x l Hx _ IH]; [done|]. cbn. by rewrite Hx, IH. Qed.

(** X17. No client is turned away early: along a run from the empty initial
    state whose clock readings never decrease, a request is answered 429 at
    time [t] only if at least [limit] requests of the same client were
    admitted in the 60 seconds up to [t]. *)
Theorem rejected_only_at_the_limit (limit : Z) (trace : list (Request * Q))
    (request : Request) (t : Q) (status retry_after : Z)
    (error message : string) (requests1 : Requests) :
  nondecreasing (map snd trace ++ [t]) ->
  dispatch limit (snd (run limit ∅ trace)) request t
    = (JSONResponse status error message retry_after, requests1) ->
  limit <= Z.of_nat (length (List.filter (in_window t)
                               (admitted (client_host request) trace
                                  (fst (run limit ∅ trace))))).
Proof.
  intros Hs Hrej.
  destruct (reachable_ordered limit trace t Hs) as (T' & HT' & Ho).
  assert (Hhist : exists D,
             admitted (client_host request) trace (fst (run limit ∅ trace))
             = D ++ snd (run limit ∅ trace) !!! client_host request).
  { apply nondecreasing_app_l in Hs.
    destruct trace as [|[request0 t0] trace'] eqn:E; [by exists []|].
    rewrite <- E in *.
    destruct (run_window_bounded limit (client_host request) trace t0 [] ∅)
      as (T'' & (D & HD & _) & _).
    - apply window_bounded_empty.
    - rewrite E. cbn [map snd]. split; [apply Qle_refl|]. by rewrite E in Hs.
    - by exists D. }
  destruct Hhist as [D HD]. rewrite HD.
  destruct (String.eqb_spec (url_path request) "/health") as [Hp|Hp].
  { by rewrite dispatch_health in Hrej. }
  rewrite dispatch_checked in Hrej by done. cbn zeta in Hrej.
  destruct (Ho (client_host request)) as [Hsorted Hbelow].
  pose proof (prune_recent (t - window)%Q _ Hsorted) as Hrecent.
  destruct (prune_suffix (t - window)%Q
              (snd (run limit ∅ trace) !!! client_host request)) as [pre Hpre].
  destruct (Z.leb_spec limit
              (Z.of_nat (length (prune (t - window)%Q
                 (snd (run limit ∅ trace) !!! client_host request)))))
    as [Hfull|Hroom]; [|discriminate].
  clear Hrej. rewrite Hpre at 1. rewrite !List.filter_app, !length_app.
  rewrite Hpre in Hbelow. apply Forall_app in Hbelow as [_ Hbelow].
  rewrite (filter_all (in_window t)
             (prune (t - window)%Q
                (snd (run limit ∅ trace) !!! client_host request))); [lia|].
  apply Forall_forall. intros x Hx.
  rewrite Forall_forall in Hrecent, Hbelow.
  specialize (Hrecent x Hx). specialize (Hbelow x Hx). cbv beta in *.
  apply in_window_true. unfold window in *. split; lra.
Qed.

Lemma rejected_only_at_the_limit_witness :
  nondecreasing (map snd [(a_request, 0%Q)] ++ [1%Q]) /\
  dispatch 1 (snd (run 1 ∅ [(a_request, 0%Q)])) a_request 1%Q
    = (JSONResponse 429 "Rate limit exceeded" (limit_message 1) 59,
       {[ "203.0.113.7" := [0%Q] ]}) /\
  1 <= Z.of_nat (length (List.filter (in_window 1)
                           (admitted (client_host a_request) [(a_request, 0%Q)]
                              (fst (run 1 ∅ [(a_request, 0%Q)]))))).
Proof.
  assert (H1 : nondecreasing (map snd [(a_request, 0%Q)] ++ [1%Q])).
  { simpl. repeat split; unfold Qle; simpl; lia. }
  assert (H2 : dispatch 1 (snd (run 1 ∅ [(a_request, 0%Q)])) a_request 1%Q
               = (JSONResponse 429 "Rate limit exceeded" (limit_message 1) 59,
                  {[ "203.0.113.7" := [0%Q] ]})) by (vm_compute; reflexivity).
  split; [exact H1|]. split; [exact H2|].
  exact (rejected_only_at_the_limit 1 [(a_request, 0%Q)] a_request 1%Q
           429 59 "Rate limit exceeded" (limit_message 1)
           {[ "203.0.113.7" := [0%Q] ]} H1 H2).
Defined.

(** *** The properties at concrete runs *)

(** Three requests of one client at 0 s, 10 s and 20 s under a limit of 2. *)
Lemma admissions_per_window_bounded_witness :
  nondecreasing (map snd [(a_request, 0%Q); (a_request, 10%Q); (a_request, 20%Q)]) /\
  Z.of_nat (length (List.filter (in_window 20)
                      (admitted "203.0.113.7"
                         [(a_request, 0%Q); (a_request, 10%Q); (a_request, 20%Q)]
                         (fst (run 2 ∅ [(a_request, 0%Q); (a_request, 10%Q);
                                        (a_request, 20%Q)])))))
    <= Z.max 0 2.
Proof.
  assert (H1 : nondecreasing
                 (map snd [(a_request, 0%Q); (a_request, 10%Q); (a_request, 20%Q)])).
  { simpl. repeat split; unfold Qle; simpl; lia. }
  split; [exact H1|].
  exact (admissions_per_window_bounded 2
           [(a_request, 0%Q); (a_request, 10%Q); (a_request, 20%Q)]
           "203.0.113.7" 20%Q H1).
Defined.

(** Under a limit of 1, a request at 0 s, a second one at 1 s that is told
    to wait 59 s, and the retry at 61 s. *)
Lemma retry_after_one_more_second_admitted_witness :
  dispatch 1 (snd (run 1 ∅ [(a_request, 0%Q)])) a_request 1%Q
    = (JSONResponse 429 "Rate limit exceeded" (limit_message 1) 59,
       {[ "203.0.113.7" := [0%Q] ]}) /\
  (1 + inject_Z 59 + 1 <= 61)%Q /\
  fst (dispatch 1 {[ "203.0.113.7" := [0%Q] ]} a_request 61%Q) = CallNext.
Proof.
  assert (H1 : dispatch 1 (snd (run 1 ∅ [(a_request, 0%Q)])) a_request 1%Q
               = (JSONResponse 429 "Rate limit exceeded" (limit_message 1) 59,
                  {[ "203.0.113.7" := [0%Q] ]})) by (vm_compute; reflexivity).
  assert (H2 : (1 + inject_Z 59 + 1 <= 61)%Q) by (unfold Qle; simpl; lia).
  split; [exact H1|]. split; [exact H2|].
  exact (retry_after_one_more_second_admitted 1 [(a_request, 0%Q)] a_request
           1%Q 61%Q 429 59 "Rate limit exceeded" (limit_message 1)
           {[ "203.0.113.7" := [0%Q] ]} H1 H2).
Defined.

Lemma retry_after_between_0_and_60_witness :
  nondecreasing (map snd [(a_request, 0%Q)] ++ [1%Q]) /\
  dispatch 1 (snd (run 1 ∅ [(a_request, 0%Q)])) a_request 1%Q
    = (JSONResponse 429 "Rate limit exceeded" (limit_message 1) 59,
       {[ "203.0.113.7" := [0%Q] ]}) /\
  0 <= 59 <= 60.
Proof.
  assert (H1 : nondecreasing (map snd [(a_request, 0%Q)] ++ [1%Q])).
  { simpl. repeat split; unfold Qle; simpl; lia. }
  assert (H2 : dispatch 1 (snd (run 1 ∅ [(a_request, 0%Q)])) a_request 1%Q
               = (JSONResponse 429 "Rate limit exceeded" (limit_message 1) 59,
                  {[ "203.0.113.7" := [0%Q] ]})) by (vm_compute; reflexivity).
  split; [exact H1|]. split; [exact H2|].
  exact (retry_after_between_0_and_60 1 [(a_request, 0%Q)] a_request 1%Q
           429 59 "Rate limit exceeded" (limit_message 1)
           {[ "203.0.113.7" := [0%Q] ]} H1 H2).
Defined.

End RateLimiterRunFacts.

(** * More on the image normalizer *)

Module NormalizerMoreFacts.

Import Service NormalizerFacts.

Lemma BLEND8_range (a c : Z) :
  0 <= a <= 255 -> 0 <= c <= 255 -> 0 <= PIL.BLEND8 a 255 c <= 255.
Proof.
  intros Ha Hc. pose proof (BLEND8_linear a c Ha Hc) as H.
  assert (0 <= 255 * (255 - a) + c * a <= 65025) by nia. lia.
Qed.

Lemma lookup_map {A B} (f : A -> B) (l : list A) (i : nat) (x : A) :
  l !! i = Some x -> map f l !! i = Some (f x).
Proof.
  revert i. induction l as [|y l IH]; intros [|i]; cbn; try done.
  - by intros [= ->].
  - apply IH.
Qed.

(** A pixel of a well-formed image of four bands. *)
Lemma well_formed_RGBA_pixel (image : PIL.Image) (i : nat) (p : list Z) :
  PIL.mode image = "RGBA" -> PIL.well_formed image ->
  PIL.getdata image !! i = Some p ->
  exists r g b a, p = [r; g; b; a] /\
    0 <= r <= 255 /\ 0 <= g <= 255 /\ 0 <= b <= 255 /\ 0 <= a <= 255.
Proof.
  intros Hm [_ Hpx] Hi. rewrite Hm in Hpx.
  rewrite Forall_lookup in Hpx. destruct (Hpx i p Hi) as [Hlen Hrange].
  destruct p as [|r [|g [|b [|a [|? ?]]]]]; try discriminate Hlen.
  exists r, g, b, a. split; [done|].
  repeat (apply Forall_cons in Hrange as [? Hrange]). done.
Qed.

(** X6. Normalizing a decoded RGBA image composites every pixel over white
    with its alpha as the weight: a fully transparent pixel becomes white, a
    fully opaque one keeps its colour, and in between each band is
    [(255 * (255 - a) + c * a) / 255] rounded to the nearest integer. *)
Theorem RGBA_pixel_composited_over_white (w : World) (image : PIL.Image)
    (i : nat) (r g b a : Z) :
  PIL.mode image = "RGBA" ->
  PIL.well_formed image ->
  PIL.getdata image !! i = Some [r; g; b; a] ->
  exists out r' g' b',
    flatten w image = Ok out /\
    PIL.getdata out !! i = Some [r'; g'; b'] /\
    (a = 0 -> [r'; g'; b'] = [255; 255; 255]) /\
    (a = 255 -> [r'; g'; b'] = [r; g; b]) /\
    255 * r' - 127 <= 255 * (255 - a) + r * a <= 255 * r' + 127 /\
    255 * g' - 127 <= 255 * (255 - a) + g * a <= 255 * g' + 127 /\
    255 * b' - 127 <= 255 * (255 - a) + b * a <= 255 * b' + 127.
Proof.
  intros Hm Hwf Hi.
  destruct (well_formed_RGBA_pixel image i _ Hm Hwf Hi)
    as (r0 & g0 & b0 & a0 & [= <- <- <- <-] & Hr & Hg & Hb & Ha).
  rewrite (flatten_RGBA w image Hm Hwf).
  eexists _, (PIL.BLEND8 a 255 r), (PIL.BLEND8 a 255 g), (PIL.BLEND8 a 255 b).
  split; [done|]. cbn [PIL.getdata].
  split; [by rewrite (lookup_map over_white _ _ _ Hi)|].
  split; [intros ->; by rewrite !BLEND8_transparent|].
  split; [intros ->; by rewrite !BLEND8_opaque|].
  auto using BLEND8_linear.
Qed.

Lemma RGBA_pixel_composited_over_white_witness :
  PIL.mode Examples.three_reds_RGBA = "RGBA" /\
  PIL.well_formed Examples.three_reds_RGBA /\
  PIL.getdata Examples.three_reds_RGBA !! 2%nat = Some [200; 0; 0; 128] /\
  exists out r' g' b',
    flatten Examples.world Examples.three_reds_RGBA = Ok out /\
    PIL.getdata out !! 2%nat = Some [r'; g'; b'] /\
    (128 = 0 -> [r'; g'; b'] = [255; 255; 255]) /\
    (128 = 255 -> [r'; g'; b'] = [200; 0; 0]) /\
    255 * r' - 127 <= 255 * (255 - 128) + 200 * 128 <= 255 * r' + 127 /\
    255 * g' - 127 <= 255 * (255 - 128) + 0 * 128 <= 255 * g' + 127 /\
    255 * b' - 127 <= 255 * (255 - 128) + 0 * 128 <= 255 * b' + 127.
Proof.
  assert (H1 : PIL.mode Examples.three_reds_RGBA = "RGBA") by reflexivity.
  assert (H2 : PIL.well_formed Examples.three_reds_RGBA).
  { split; [reflexivity|]. repeat constructor; simpl; lia. }
  assert (H3 : PIL.getdata Examples.three_reds_RGBA !! 2%nat
               = Some [200; 0; 0; 128]) by reflexivity.
  split; [exact H1|]. split; [exact H2|]. split; [exact H3|].
  exact (RGBA_pixel_composited_over_white Examples.world
           Examples.three_reds_RGBA 2 200 0 0 128 H1 H2 H3).
Defined.

(** X7. For a decoded image of mode RGBA, LA or RGB the normalizer needs no
    conversion by Pillow and cannot fail: what it saves is a well-formed RGB
    image of the same size. *)
Theorem flatten_keeps_well_formed (w : World) (image : PIL.Image) :
  PIL.well_formed image ->
  PIL.mode image = "RGBA" \/ PIL.mode image = "LA" \/ PIL.mode image = "RGB" ->
  exists out,
    flatten w image = Ok out /\
    PIL.mode out = "RGB" /\
    PIL.size out = PIL.size image /\
    PIL.well_formed out.
Proof.
  intros Hwf [Hm|[Hm|Hm]].
  - rewrite (flatten_RGBA w image Hm Hwf). eexists. split; [done|].
    split; [done|]. split; [done|]. destruct Hwf as [Hlen Hpx].
    split; cbn [PIL.getdata PIL.size PIL.mode].
    + by rewrite length_map.
    + rewrite Hm in Hpx. apply Forall_forall. intros q Hq.
      apply list_elem_of_In, List.in_map_iff in Hq as (p & <- & Hp).
      apply list_elem_of_In in Hp. rewrite Forall_forall in Hpx.
      destruct (Hpx p Hp) as [Hplen Hrange].
      destruct p as [|r [|g [|b [|a [|? ?]]]]]; try discriminate Hplen.
      repeat (apply Forall_cons in Hrange as [? Hrange]).
      split; [done|]. unfold over_white. cbn [nth].
      do 3 (constructor; [by apply BLEND8_range|]). constructor.
  - rewrite (flatten_LA w image Hm Hwf). eexists. split; [done|].
    split; [done|]. split; [done|]. destruct Hwf as [Hlen Hpx].
    split; cbn [PIL.getdata PIL.size PIL.mode].
    + by rewrite length_map.
    + rewrite Hm in Hpx. apply Forall_forall. intros q Hq.
      apply list_elem_of_In, List.in_map_iff in Hq as (p & <- & Hp).
      apply list_elem_of_In in Hp. rewrite Forall_forall in Hpx.
      destruct (Hpx p Hp) as [Hplen Hrange].
      destruct p as [|l [|a [|? ?]]]; try discriminate Hplen.
      apply Forall_cons in Hrange as [? Hrange].
      split; [done|]. cbn [nth].
      do 3 (constructor; [done|]). constructor.
  - exists image. unfold flatten. by rewrite Hm.
Qed.

Lemma flatten_keeps_well_formed_witness :
  PIL.well_formed Examples.transparent_black_LA /\
  (PIL.mode Examples.transparent_black_LA = "RGBA" \/
   PIL.mode Examples.transparent_black_LA = "LA" \/
   PIL.mode Examples.transparent_black_LA = "RGB") /\
  exists out,
    flatten Examples.world Examples.transparent_black_LA = Ok out /\
    PIL.mode out = "RGB" /\
    PIL.size out = PIL.size Examples.transparent_black_LA /\
    PIL.well_formed out.
Proof.
  assert (H1 : PIL.well_formed Examples.transparent_black_LA).
  { split; [reflexivity|]. repeat constructor; simpl; lia. }
  assert (H2 : PIL.mode Examples.transparent_black_LA = "RGBA" \/
               PIL.mode Examples.transparent_black_LA = "LA" \/
               PIL.mode Examples.transparent_black_LA = "RGB")
    by (right; left; reflexivity).
  split; [exact H1|]. split; [exact H2|].
  exact (flatten_keeps_well_formed Examples.world
           Examples.transparent_black_LA H1 H2).
Defined.

(** X8. Whatever makes [_process_image_for_openai] fail, the caller sees
    "Invalid image data: " followed by the text of the cause, and the cause
    is either that the bytes do not decode, at [Image.open] or when Pillow
    decodes the pixel data at the first use of the image, or that Pillow
    cannot convert an image of a mode other than RGBA, LA and RGB. *)
Theorem process_image_failures_are_wrapped (w : World) (image_data : bytes)
    (e : string) :
  _process_image_for_openai w image_data = Raise e ->
  exists cause,
    e = "Invalid image data: " +:+ cause /\
    (Image_open w image_data = Raise cause \/
     exists image,
       Image_open w image_data = Ok image /\
       PIL.mode image <> "RGBA" /\ PIL.mode image <> "LA" /\
       PIL.mode image <> "RGB" /\
       convert_RGB w image = Raise cause).
Proof.
  unfold _process_image_for_openai.
  destruct (Image_open w image_data) as [image|cause] eqn:Eopen.
  2:{ intros [= <-]. exists cause. split; [done|]. by left. }
  destruct (flatten w image) as [out|cause] eqn:Eflat; [discriminate|].
  intros [= <-]. exists cause. split; [done|]. right. exists image.
  unfold flatten in Eflat.
  destruct (String.eqb_spec (PIL.mode image) "RGBA") as [|HnRGBA];
    [discriminate|].
  destruct (String.eqb_spec (PIL.mode image) "LA") as [|HnLA];
    [discriminate|].
  destruct (String.eqb_spec (PIL.mode image) "RGB") as [|HnRGB];
    [discriminate|].
  cbn [orb negb] in Eflat. done.
Qed.

Lemma process_image_failures_are_wrapped_witness :
  _process_image_for_openai Examples.world [Byte.x00]
    = Raise "Invalid image data: cannot identify image file" /\
  exists cause,
    "Invalid image data: cannot identify image file"
      = "Invalid image data: " +:+ cause /\
    (Image_open Examples.world [Byte.x00] = Raise cause \/
     exists image,
       Image_open Examples.world [Byte.x00] = Ok image /\
       PIL.mode image <> "RGBA" /\ PIL.mode image <> "LA" /\
       PIL.mode image <> "RGB" /\
       convert_RGB Examples.world image = Raise cause).
Proof.
  assert (H1 : _process_image_for_openai Examples.world [Byte.x00]
               = Raise "Invalid image data: cannot identify image file")
    by reflexivity.
  split; [exact H1|].
  exact (process_image_failures_are_wrapped Examples.world [Byte.x00] _ H1).
Defined.

End NormalizerMoreFacts.

(** * More on the provider gateway *)

Module ServiceMoreFacts.

Import Models Service ServiceFacts ServiceRuns.

Lemma grows_refl (s : Sys) : grows s s.
Proof. by intros p. Qed.

Lemma grows_trans (s1 s2 s3 : Sys) : grows s1 s2 -> grows s2 s3 -> grows s1 s3.
Proof. intros H12 H23 p Hp. by apply H23, H12. Qed.

Lemma saved_in_grows (s s' : Sys) (image_info : ImageInfo.t) :
  grows s s' -> saved_in s image_info -> saved_in s' image_info.
Proof.
  intros Hg (filename & Hf & Hp & Hfile). exists filename.
  split; [done|]. split; [done|]. by apply Hg.
Qed.

(** What saving does, step by step. *)
Lemma save_and_append_true (w : World) (prefix : string) (format : ImageFormat)
    (idx : nat) (image_info : ImageInfo.t) (s : Sys) :
  let stamp := strftime_now w (clock s) in
  let filename :=
    (prefix +:+ stamp +:+ "_" +:+ pretty idx) +:+ "." +:+ format_value format in
  save_and_append w true prefix format idx image_info s =
    match match ImageInfo.b64_json image_info with
          | Some text => b64decode w text
          | None => Raise "argument should be a bytes-like object or ASCII string, not 'NoneType'"
          end with
    | Ok image_data =>
        (Ok {| ImageInfo.index := ImageInfo.index image_info;
               ImageInfo.b64_json := ImageInfo.b64_json image_info;
               ImageInfo.revised_prompt := ImageInfo.revised_prompt image_info;
               ImageInfo.filename := Some filename;
               ImageInfo.file_path :=
                 Some (GENERATED_IMAGES_DIR +:+ "/" +:+ filename) |},
         {| files := <[path_join GENERATED_IMAGES_DIR filename := image_data]>
                       (files s);
            clock := S (clock s) |})
    | Raise e => (Raise e, {| files := files s; clock := S (clock s) |})
    end.
Proof.
  cbv zeta. unfold save_and_append.
  unfold bind at 1. unfold now at 1.
  unfold bind at 1. unfold _save_image_to_disk.
  unfold bind at 1. unfold lift.
  by destruct (match ImageInfo.b64_json image_info with
               | Some text => b64decode w text
               | None => _
               end).
Qed.

Lemma save_and_append_grows (w : World) (save : bool) (prefix : string)
    (format : ImageFormat) (idx : nat) (image_info : ImageInfo.t) (s : Sys) :
  grows s (snd (save_and_append w save prefix format idx image_info s)).
Proof.
  destruct save; [|apply grows_refl].
  rewrite save_and_append_true.
  destruct (match ImageInfo.b64_json image_info with
            | Some text => b64decode w text
            | None => _
            end); cbn [snd]; intros p Hp; cbn [files]; [|done].
  rewrite lookup_insert_is_Some. destruct (decide (path_join GENERATED_IMAGES_DIR
    ((prefix +:+ strftime_now w (clock s) +:+ "_" +:+ pretty idx) +:+ "." +:+
     format_value format) = p)); auto.
Qed.

Lemma save_and_append_saved (w : World) (prefix : string) (format : ImageFormat)
    (idx : nat) (image_info image_info' : ImageInfo.t) (s s' : Sys) :
  save_and_append w true prefix format idx image_info s = (Ok image_info', s') ->
  saved_in s' image_info'.
Proof.
  rewrite save_and_append_true.
  destruct (match ImageInfo.b64_json image_info with
            | Some text => b64decode w text
            | None => _
            end); [|discriminate].
  intros [= <- <-]. eexists. split; [done|]. split; [done|].
  cbn [files]. by rewrite lookup_insert_eq.
Qed.

Lemma save_and_append_false (w : World) (prefix : string) (format : ImageFormat)
    (idx : nat) (image_info : ImageInfo.t) (s : Sys) :
  save_and_append w false prefix format idx image_info s = (Ok image_info, s).
Proof. done. Qed.

(** The loop of [generate_image], entry by entry. *)
Lemma generated_images_Ok (w : World) (request : ImageGenerationRequest.t) :
  forall (data : list (nat * ImageData)) (s s' : Sys) (images : list ImageInfo.t),
    generated_images w request data s = (Ok images, s') ->
    Forall2 generated_from data images /\
    grows s s' /\
    (ImageGenerationRequest.save_to_disk request = true ->
     Forall (saved_in s') images).
Proof.
  induction data as [|[idx item] data IH]; intros s s' images H.
  { cbn in H. unfold ret in H. injection H as <- <-.
    split; [constructor|]. split; [apply grows_refl | by constructor]. }
  cbn [generated_images] in H.
  apply bind_Ok_inv in H as (image_info & s1 & Hsave & H).
  apply bind_Ok_inv in H as (images' & s2 & Hrest & H).
  unfold ret in H. injection H as <- <-.
  destruct (IH _ _ _ Hrest) as (Hall & Hgrow & Hsaved).
  pose proof (save_and_append_grows w
                (ImageGenerationRequest.save_to_disk request) "generated_"
                (ImageGenerationRequest.response_format request) idx
                {| ImageInfo.index := idx;
                   ImageInfo.b64_json := b64_json item;
                   ImageInfo.revised_prompt := revised_prompt item;
                   ImageInfo.filename := None;
                   ImageInfo.file_path := None |} s) as Hg1.
  rewrite Hsave in Hg1. cbn [snd] in Hg1.
  split; [|split].
  - constructor; [|done].
    destruct (ImageGenerationRequest.save_to_disk request).
    + rewrite save_and_append_true in Hsave. cbn [ImageInfo.b64_json] in Hsave.
      destruct (match b64_json item with
                | Some text => b64decode w text
                | None => _
                end); [|discriminate].
      by injection Hsave as <- _.
    + by injection Hsave as <- _.
  - by apply grows_trans with s1.
  - intros Hs. constructor; [|by apply Hsaved].
    rewrite Hs in Hsave. apply save_and_append_saved in Hsave.
    by apply saved_in_grows with s1.
Qed.

Lemma generated_images_no_save (w : World) (request : ImageGenerationRequest.t) :
  ImageGenerationRequest.save_to_disk request = false ->
  forall (data : list (nat * ImageData)) (s : Sys),
    generated_images w request data s =
      (Ok (map (fun entry =>
                  {| ImageInfo.index := fst entry;
                     ImageInfo.b64_json := b64_json (snd entry);
                     ImageInfo.revised_prompt := revised_prompt (snd entry);
                     ImageInfo.filename := None;
                     ImageInfo.file_path := None |}) data), s).
Proof.
  intros Hs. induction data as [|[idx item] data IH]; intros s; [done|].
  cbn [generated_images]. rewrite Hs.
  unfold bind at 1. rewrite save_and_append_false.
  unfold bind. by rewrite IH.
Qed.

Lemma generated_images_files (w : World) (request : ImageGenerationRequest.t)
    (p : string) :
  (forall name, p <> path_join GENERATED_IMAGES_DIR ("generated_" +:+ name)) ->
  forall (data : list (nat * ImageData)) (s : Sys),
    files (snd (generated_images w request data s)) !! p = files s !! p.
Proof.
  intros Hp. induction data as [|[idx item] data IH]; intros s; [done|].
  cbn [generated_images]. unfold bind at 1.
  pose proof (save_and_append_files w
                (ImageGenerationRequest.save_to_disk request) "generated_"
                (ImageGenerationRequest.response_format request) idx
                {| ImageInfo.index := idx;
                   ImageInfo.b64_json := b64_json item;
                   ImageInfo.revised_prompt := revised_prompt item;
                   ImageInfo.filename := None;
                   ImageInfo.file_path := None |} s p Hp) as Hsave.
  destruct (save_and_append _ _ _ _ _ _ s) as [[image_info|e] s1];
    cbn [snd] in *; [|done].
  unfold bind. specialize (IH s1).
  destruct (generated_images w request data s1) as [[images|e] s2];
    cbn [snd] in *; unfold ret; cbn [snd]; congruence.
Qed.

(** The body of [generate_image] once the provider has answered. *)
Lemma generate_image_answered (w : World) (request : ImageGenerationRequest.t)
    (sys : Sys) (items : list ImageData) :
  client w = true ->
  images_generate w
    (model_value (ImageGenerationRequest.model request))
    (ImageGenerationRequest.prompt request)
    (size_value (ImageGenerationRequest.size request))
    (quality_value (ImageGenerationRequest.quality request))
    (ImageGenerationRequest.n request) "b64_json" = Ok items ->
  generate_image w request sys =
    match generated_images w request (enumerate items) sys with
    | (Ok images, sys') =>
        ({| success := true;
            message := "Successfully generated " +:+ pretty (length images) +:+
                       " image(s)";
            images := Some images;
            request_params := Some
              [("model", PyStr (model_value (ImageGenerationRequest.model request)));
               ("prompt", PyStr (ImageGenerationRequest.prompt request));
               ("size", PyStr (size_value (ImageGenerationRequest.size request)));
               ("quality", PyStr (quality_value (ImageGenerationRequest.quality request)));
               ("n", PyInt (ImageGenerationRequest.n request))];
            error := None |}, sys')
    | (Raise e, sys') => (failure e "Failed to generate image", sys')
    end.
Proof.
  intros Hc Hgen. unfold generate_image, try_except, generate_image_body.
  rewrite Hc. cbn [negb]. unfold bind at 1. unfold lift at 1. rewrite Hgen.
  unfold bind.
  by destruct (generated_images w request (enumerate items) sys) as [[images|e] sys'].
Qed.

Lemma length_enumerate {A} (l : list A) : length (enumerate l) = length l.
Proof. unfold enumerate. rewrite length_zip, length_seq. lia. Qed.

(** X9. A text-to-image call that succeeds returns exactly one entry per
    item of the provider's response, in the order of the response: entry [i]
    has index [i] and the inline data and revised prompt of item [i], and the
    message counts the items. Nothing is dropped or reordered. *)
Theorem generate_image_one_entry_per_item (w : World)
    (request : ImageGenerationRequest.t) (sys : Sys) (items : list ImageData) :
  client w = true ->
  images_generate w
    (model_value (ImageGenerationRequest.model request))
    (ImageGenerationRequest.prompt request)
    (size_value (ImageGenerationRequest.size request))
    (quality_value (ImageGenerationRequest.quality request))
    (ImageGenerationRequest.n request) "b64_json" = Ok items ->
  let outcome := fst (generate_image w request sys) in
  success outcome = true ->
  exists returned,
    images outcome = Some returned /\
    Forall2 generated_from (enumerate items) returned /\
    length returned = length items /\
    message outcome
      = "Successfully generated " +:+ pretty (length items) +:+ " image(s)".
Proof.
  intros Hc Hgen outcome. subst outcome.
  rewrite (generate_image_answered w request sys items Hc Hgen).
  destruct (generated_images w request (enumerate items) sys)
    as [[returned|e] sys'] eqn:Eloop; cbn [fst success]; [|discriminate].
  intros _. exists returned.
  destruct (generated_images_Ok w request _ _ _ _ Eloop) as (Hall & _ & _).
  assert (Hlen : length returned = length items).
  { apply Forall2_length in Hall. by rewrite <- Hall, length_enumerate. }
  split; [done|]. split; [done|]. split; [done|].
  cbn [message]. by rewrite Hlen.
Qed.

Lemma generate_image_one_entry_per_item_witness :
  client Examples.world = true /\
  success (fst (generate_image Examples.world Examples.a_cat Examples.fresh))
    = true /\
  exists returned,
    images (fst (generate_image Examples.world Examples.a_cat Examples.fresh))
      = Some returned /\
    Forall2 generated_from (enumerate [Examples.inline]) returned /\
    length returned = length [Examples.inline] /\
    message (fst (generate_image Examples.world Examples.a_cat Examples.fresh))
      = "Successfully generated " +:+ pretty (length [Examples.inline]) +:+
        " image(s)".
Proof.
  assert (H1 : client Examples.world = true) by reflexivity.
  assert (H2 : success (fst (generate_image Examples.world Examples.a_cat
                               Examples.fresh)) = true) by reflexivity.
  split; [exact H1|]. split; [exact H2|].
  exact (generate_image_one_entry_per_item Examples.world Examples.a_cat
           Examples.fresh [Examples.inline] H1 eq_refl H2).
Defined.

(** X10. With [save_to_disk] off, [generate_image] neither writes a file nor
    reads the clock, whether it succeeds or fails and whatever the provider
    answers. *)
Theorem generate_image_without_saving (w : World)
    (request : ImageGenerationRequest.t) (sys : Sys) :
  ImageGenerationRequest.save_to_disk request = false ->
  snd (generate_image w request sys) = sys.
Proof.
  intros Hs. destruct (client w) eqn:Hc.
  - destruct (images_generate w
                (model_value (ImageGenerationRequest.model request))
                (ImageGenerationRequest.prompt request)
                (size_value (ImageGenerationRequest.size request))
                (quality_value (ImageGenerationRequest.quality request))
                (ImageGenerationRequest.n request) "b64_json")
      as [items|e] eqn:Hgen.
    + rewrite (generate_image_answered w request sys items Hc Hgen).
      by rewrite generated_images_no_save.
    + unfold generate_image, try_except, generate_image_body.
      rewrite Hc. cbn [negb]. unfold bind at 1. unfold lift. by rewrite Hgen.
  - unfold generate_image, try_except, generate_image_body. by rewrite Hc.
Qed.

Lemma generate_image_without_saving_witness :
  ImageGenerationRequest.save_to_disk Examples.a_cat = false /\
  snd (generate_image Examples.world Examples.a_cat Examples.fresh)
    = Examples.fresh.
Proof.
  assert (H1 : ImageGenerationRequest.save_to_disk Examples.a_cat = false)
    by reflexivity.
  split; [exact H1|].
  exact (generate_image_without_saving Examples.world Examples.a_cat
           Examples.fresh H1).
Defined.

(** X11. When [generate_image] saves, the files it names in its result
    exist when it returns, and it touches no file other than those named
    "generated-images/generated_...". *)
Theorem generate_image_saved_files (w : World)
    (request : ImageGenerationRequest.t) (sys : Sys) :
  (ImageGenerationRequest.save_to_disk request = true ->
   success (fst (generate_image w request sys)) = true ->
   exists returned,
     images (fst (generate_image w request sys)) = Some returned /\
     Forall (saved_in (snd (generate_image w request sys))) returned) /\
  (forall p,
      (forall name,
          p <> path_join GENERATED_IMAGES_DIR ("generated_" +:+ name)) ->
      files (snd (generate_image w request sys)) !! p = files sys !! p).
Proof.
  destruct (client w) eqn:Hc.
  2:{ unfold generate_image, try_except, generate_image_body. rewrite Hc.
      cbn. split; [discriminate | done]. }
  destruct (images_generate w
              (model_value (ImageGenerationRequest.model request))
              (ImageGenerationRequest.prompt request)
              (size_value (ImageGenerationRequest.size request))
              (quality_value (ImageGenerationRequest.quality request))
              (ImageGenerationRequest.n request) "b64_json")
    as [items|e] eqn:Hgen.
  2:{ unfold generate_image, try_except, generate_image_body.
      rewrite Hc. cbn [negb]. unfold bind at 1. unfold lift. rewrite Hgen.
      cbn. split; [discriminate | done]. }
  rewrite (generate_image_answered w request sys items Hc Hgen). split.
  - intros Hs. destruct (generated_images w request (enumerate items) sys)
      as [[returned|e] sys'] eqn:Eloop; cbn [fst snd success images];
      [|discriminate].
    intros _. exists returned. split; [done|].
    destruct (generated_images_Ok w request _ _ _ _ Eloop) as (_ & _ & Hsaved).
    by apply Hsaved.
  - intros p Hp.
    pose proof (generated_images_files w request p Hp (enumerate items) sys) as H.
    by destruct (generated_images w request (enumerate items) sys)
      as [[returned|e] sys'].
Qed.

Lemma generate_image_saved_files_witness :
  ImageGenerationRequest.save_to_disk a_saved_cat = true /\
  success (fst (generate_image Examples.world a_saved_cat Examples.fresh)) = true /\
  (exists returned,
     images (fst (generate_image Examples.world a_saved_cat Examples.fresh))
       = Some returned /\
     Forall (saved_in (snd (generate_image Examples.world a_saved_cat
                              Examples.fresh))) returned) /\
  files (snd (generate_image Examples.world a_saved_cat Examples.fresh))
    !! "logs/api.log" = files Examples.fresh !! "logs/api.log".
Proof.
  assert (H1 : ImageGenerationRequest.save_to_disk a_saved_cat = true)
    by reflexivity.
  assert (H2 : success (fst (generate_image Examples.world a_saved_cat
                               Examples.fresh)) = true)
    by (vm_compute; reflexivity).
  pose proof (generate_image_saved_files Examples.world a_saved_cat
                Examples.fresh) as [Hsaved Hframe].
  split; [exact H1|]. split; [exact H2|]. split; [exact (Hsaved H1 H2)|].
  apply Hframe. intros name. unfold path_join, GENERATED_IMAGES_DIR.
  simpl. discriminate.
Defined.

(** The loop of [generate_with_reference_urls] only adds files, and the
    entries it saves name files that are there. *)
Lemma unified_images_saved (w : World) (request : ReferenceGenerationRequest.t) :
  forall (data : list (nat * ImageData)) (s s' : Sys) (images : list ImageInfo.t),
    unified_images w request data s = (Ok images, s') ->
    grows s s' /\
    (ReferenceGenerationRequest.save_to_disk request = true ->
     Forall (saved_in s') images).
Proof.
  induction data as [|[idx item] data IH]; intros s s' images H.
  { cbn in H. unfold ret in H. injection H as <- <-.
    split; [apply grows_refl | by constructor]. }
  assert (Happend : forall b64_data s0,
    (do image_info <-
       save_and_append w (ReferenceGenerationRequest.save_to_disk request)
         "reference_" (ReferenceGenerationRequest.response_format request) idx
         {| ImageInfo.index := idx;
            ImageInfo.b64_json := Some b64_data;
            ImageInfo.revised_prompt := None;
            ImageInfo.filename := None;
            ImageInfo.file_path := None |};
     do images <- unified_images w request data;
     ret (image_info :: images)) s0 = (Ok images, s') ->
    grows s0 s' /\
    (ReferenceGenerationRequest.save_to_disk request = true ->
     Forall (saved_in s') images)).
  { intros b64_data s0 H0.
    apply bind_Ok_inv in H0 as (image_info & s1 & Hsave & H0).
    apply bind_Ok_inv in H0 as (images' & s2 & Hrest & H0).
    unfold ret in H0. injection H0 as <- <-.
    destruct (IH _ _ _ Hrest) as (Hgrow & Hsaved).
    pose proof (save_and_append_grows w
                  (ReferenceGenerationRequest.save_to_disk request) "reference_"
                  (ReferenceGenerationRequest.response_format request) idx
                  {| ImageInfo.index := idx;
                     ImageInfo.b64_json := Some b64_data;
                     ImageInfo.revised_prompt := None;
                     ImageInfo.filename := None;
                     ImageInfo.file_path := None |} s0) as Hg1.
    rewrite Hsave in Hg1. cbn [snd] in Hg1. split.
    - by apply grows_trans with s1.
    - intros Hs. constructor; [|by apply Hsaved].
      rewrite Hs in Hsave. apply save_and_append_saved in Hsave.
      by apply saved_in_grows with s1. }
  cbn [unified_images] in H. destruct (truthy (url item)).
  - apply bind_Ok_inv in H as (content & s1 & Hget & H).
    unfold lift in Hget. injection Hget as _ <-. by eapply Happend.
  - destruct (truthy (b64_json item)); [by eapply Happend | by eapply IH].
Qed.

Lemma unified_images_no_save (w : World) (request : ReferenceGenerationRequest.t) :
  ReferenceGenerationRequest.save_to_disk request = false ->
  forall (data : list (nat * ImageData)) (s : Sys),
    snd (unified_images w request data s) = s.
Proof.
  intros Hs. induction data as [|[idx item] data IH]; intros s; [done|].
  assert (Happend : forall b64_data,
    snd ((do image_info <-
            save_and_append w (ReferenceGenerationRequest.save_to_disk request)
              "reference_" (ReferenceGenerationRequest.response_format request) idx
              {| ImageInfo.index := idx;
                 ImageInfo.b64_json := Some b64_data;
                 ImageInfo.revised_prompt := None;
                 ImageInfo.filename := None;
                 ImageInfo.file_path := None |};
          do images <- unified_images w request data;
          ret (image_info :: images)) s) = s).
  { intros b64_data. rewrite Hs. unfold bind at 1.
    rewrite save_and_append_false. unfold bind. specialize (IH s).
    by destruct (unified_images w request data s) as [[images|e] s1]. }
  cbn [unified_images]. destruct (truthy (url item)).
  - unfold bind at 1. unfold lift at 1.
    destruct (get w (default "" (url item))); [apply Happend | done].
  - destruct (truthy (b64_json item)); [apply Happend | apply IH].
Qed.

(** The reference-guided call either stops before it touches anything or
    has downloaded its first reference. *)
Lemma reference_cases (w : World) (request : ReferenceGenerationRequest.t)
    (sys : Sys) :
  (snd (generate_with_reference_urls w request sys) = sys /\
   success (fst (generate_with_reference_urls w request sys)) = false) \/
  (exists u rest raw processed,
      client w = true /\
      ReferenceGenerationRequest.image_urls request = u :: rest /\
      _download_image_from_url w u = Ok (raw, processed)).
Proof.
  destruct (client w) eqn:Hc.
  2:{ left. unfold generate_with_reference_urls, try_except,
        generate_with_reference_urls_body. by rewrite Hc. }
  destruct (ReferenceGenerationRequest.image_urls request) as [|u rest] eqn:Hu.
  { left. unfold generate_with_reference_urls, try_except,
      generate_with_reference_urls_body. by rewrite Hc, Hu. }
  destruct (_download_image_from_url w u) as [[raw processed]|e] eqn:Hd.
  - right. by exists u, rest, raw, processed.
  - left. unfold generate_with_reference_urls, try_except.
    by rewrite (reference_body_download_fails w request sys u rest e).
Qed.

(** X12. When the reference-guided call saves, the files it names in its
    result exist when it returns; and apart from its temporary file it
    touches no file at all with [save_to_disk] off, and otherwise none but
    those named "generated-images/reference_...". *)
Theorem reference_call_saved_files (w : World)
    (request : ReferenceGenerationRequest.t) (sys : Sys) :
  (ReferenceGenerationRequest.save_to_disk request = true ->
   success (fst (generate_with_reference_urls w request sys)) = true ->
   exists returned,
     images (fst (generate_with_reference_urls w request sys)) = Some returned /\
     Forall (saved_in (snd (generate_with_reference_urls w request sys)))
       returned) /\
  (forall p,
      p <> temp_path (strftime_now w (clock sys)) ->
      ReferenceGenerationRequest.save_to_disk request = false \/
      (forall name,
          p <> path_join GENERATED_IMAGES_DIR ("reference_" +:+ name)) ->
      files (snd (generate_with_reference_urls w request sys)) !! p
        = files sys !! p).
Proof.
  destruct (reference_cases w request sys)
    as [[Hsame Hfail]|(u & rest & raw & processed & Hc & Hu & Hd)].
  { rewrite Hsame, Hfail. split; [discriminate | done]. }
  unfold generate_with_reference_urls, try_except.
  rewrite (reference_body_downloaded w request sys u rest raw processed);
    [|done..].
  cbv zeta. set (after := {| files := _; clock := _ |}).
  destruct (images_edit w _ processed _ _ _) as [response|e].
  2:{ cbn [fst snd success files]. split; [discriminate|].
      intros p Hp _. subst after. cbn [files]. by rewrite lookup_delete_ne. }
  destruct (unified_images w request (enumerate response) after)
    as [[returned|e] sys'] eqn:Eloop; cbn [fst snd success images].
  - split.
    + intros Hs _. exists returned. split; [done|].
      by apply (unified_images_saved w request _ _ _ _ Eloop).
    + intros p Hp Hnames.
      assert (Hloop : files sys' !! p = files after !! p).
      { destruct Hnames as [Hs|Hnames].
        - pose proof (unified_images_no_save w request Hs (enumerate response)
                        after) as H.
          rewrite Eloop in H. cbn [snd] in H. by rewrite H.
        - pose proof (unified_images_files w request p Hnames
                        (enumerate response) after) as H.
          by rewrite Eloop in H. }
      rewrite Hloop. subst after. cbn [files]. by rewrite lookup_delete_ne.
  - split; [discriminate|]. intros p Hp Hnames.
    assert (Hloop : files sys' !! p = files after !! p).
    { destruct Hnames as [Hs|Hnames].
      - pose proof (unified_images_no_save w request Hs (enumerate response)
                      after) as H.
        rewrite Eloop in H. cbn [snd] in H. by rewrite H.
      - pose proof (unified_images_files w request p Hnames
                      (enumerate response) after) as H.
        by rewrite Eloop in H. }
    rewrite Hloop. subst after. cbn [files]. by rewrite lookup_delete_ne.
Qed.

Lemma reference_call_saved_files_witness :
  ReferenceGenerationRequest.save_to_disk (Examples.two_references 3 true) = true /\
  success (fst (generate_with_reference_urls Examples.world
                  (Examples.two_references 3 true) Examples.fresh)) = true /\
  (exists returned,
     images (fst (generate_with_reference_urls Examples.world
                    (Examples.two_references 3 true) Examples.fresh))
       = Some returned /\
     Forall (saved_in (snd (generate_with_reference_urls Examples.world
                              (Examples.two_references 3 true) Examples.fresh)))
       returned) /\
  files (snd (generate_with_reference_urls Examples.world
                (Examples.two_references 3 true) Examples.fresh))
    !! "logs/api.log" = files Examples.fresh !! "logs/api.log".
Proof.
  assert (H1 : ReferenceGenerationRequest.save_to_disk
                 (Examples.two_references 3 true) = true) by reflexivity.
  assert (H2 : success (fst (generate_with_reference_urls Examples.world
                               (Examples.two_references 3 true) Examples.fresh))
               = true) by (vm_compute; reflexivity).
  pose proof (reference_call_saved_files Examples.world
                (Examples.two_references 3 true) Examples.fresh)
    as [Hsaved Hframe].
  split; [exact H1|]. split; [exact H2|]. split; [exact (Hsaved H1 H2)|].
  apply Hframe.
  - unfold temp_path, path_join, GENERATED_IMAGES_DIR. simpl. discriminate.
  - right. intros name. unfold path_join, GENERATED_IMAGES_DIR.
    simpl. discriminate.
Defined.

End ServiceMoreFacts.

(** * Properties of the route handlers *)

Module RouterFacts.

Import Models Service ServiceFacts ServiceRuns.

(** The reply to an outcome that has the shape the gateway gives it. *)
Lemma respond_shaped (result : Outcome) :
  (success result = true /\ error result = None /\ is_Some (images result)) \/
  (exists e message, result = failure e message) ->
  match Routers.respond result with
  | Routers.ImageResponse body =>
      body = result /\ success body = true /\ error body = None /\
      is_Some (images body)
  | Routers.HTTPException status_code detail =>
      status_code = 400 /\ success result = false /\ error result = Some detail
  | Routers.KeyError _ => False
  end.
Proof.
  unfold Routers.respond. intros [(Hs & He & Hi)|(e & message & ->)].
  - by rewrite Hs.
  - done.
Qed.

(** X14. A reference-guided request with more than five URLs is refused with
    HTTP 400 "Maximum 5 reference images allowed" before the gateway is
    called: nothing is fetched, written or asked of the provider, in any
    world. *)
Theorem more_than_five_references_refused (w : World)
    (request : ReferenceGenerationRequest.t) (sys : Sys) :
  (5 < length (ReferenceGenerationRequest.image_urls request))%nat ->
  Routers.generate_with_reference w request sys
    = (Routers.HTTPException 400 "Maximum 5 reference images allowed", sys).
Proof.
  intros H. unfold Routers.generate_with_reference.
  apply Nat.ltb_lt in H. by rewrite H.
Qed.

Lemma more_than_five_references_refused_witness :
  (5 < length (ReferenceGenerationRequest.image_urls six_references))%nat /\
  Routers.generate_with_reference Examples.world six_references Examples.fresh
    = (Routers.HTTPException 400 "Maximum 5 reference images allowed",
       Examples.fresh).
Proof.
  assert (H1 : (5 < length (ReferenceGenerationRequest.image_urls
                              six_references))%nat) by (simpl; lia).
  split; [exact H1|].
  exact (more_than_five_references_refused Examples.world six_references
           Examples.fresh H1).
Defined.

(** X15. The two mounted routes always answer properly. A returned
    [ImageResponse] is the gateway's outcome, a success with its images and
    no error; every failure of the gateway becomes HTTP 400 with the
    outcome's error text as detail, the only other 400 being the refusal of
    more than five references; and the lookup [result["error"]] never
    fails, since every failed outcome carries an error. *)
Theorem routes_reply_properly (w : World) (sys : Sys) :
  (forall request,
      let result := fst (generate_image w request sys) in
      match fst (Routers.generate_image w request sys) with
      | Routers.ImageResponse body =>
          body = result /\ success body = true /\ error body = None /\
          is_Some (images body)
      | Routers.HTTPException status_code detail =>
          status_code = 400 /\ success result = false /\
          error result = Some detail
      | Routers.KeyError _ => False
      end) /\
  (forall request,
      let result := fst (generate_with_reference_urls w request sys) in
      match fst (Routers.generate_with_reference w request sys) with
      | Routers.ImageResponse body =>
          body = result /\ success body = true /\ error body = None /\
          is_Some (images body)
      | Routers.HTTPException status_code detail =>
          status_code = 400 /\
          ((5 < length (ReferenceGenerationRequest.image_urls request))%nat /\
           detail = "Maximum 5 reference images allowed" \/
           success result = false /\ error result = Some detail)
      | Routers.KeyError _ => False
      end).
Proof.
  split; intros request; cbv zeta.
  - unfold Routers.generate_image.
    pose proof (respond_shaped _ (generate_image_shape w request sys)) as H.
    destruct (generate_image w request sys) as [result sys']. exact H.
  - unfold Routers.generate_with_reference.
    destruct (Nat.ltb_spec 5
                (length (ReferenceGenerationRequest.image_urls request)))
      as [Hmany|Hfew].
    { cbn [fst]. split; [done|]. by left. }
    pose proof (respond_shaped _
                  (generate_with_reference_urls_shape w request sys)) as H.
    destruct (generate_with_reference_urls w request sys) as [result sys'].
    cbn [fst] in *. destruct (Routers.respond result); [|done..].
    destruct H as (? & ? & ?). split; [done|]. by right.
Qed.

(** X16. Without an API key both routes answer HTTP 400 "OpenAI API key not
    configured", and with a key a reference-guided request without URLs is
    answered HTTP 400 "No reference images provided"; in all three cases
    nothing is fetched or written and the clock is not read. *)
Theorem routes_refuse_without_key_or_references (w : World) (sys : Sys) :
  (client w = false ->
   forall request,
     Routers.generate_image w request sys
       = (Routers.HTTPException 400 "OpenAI API key not configured", sys)) /\
  (client w = false ->
   forall request,
     (length (ReferenceGenerationRequest.image_urls request) <= 5)%nat ->
     Routers.generate_with_reference w request sys
       = (Routers.HTTPException 400 "OpenAI API key not configured", sys)) /\
  (client w = true ->
   forall request,
     ReferenceGenerationRequest.image_urls request = [] ->
     Routers.generate_with_reference w request sys
       = (Routers.HTTPException 400 "No reference images provided", sys)).
Proof.
  split; [|split].
  - intros Hc request. unfold Routers.generate_image, generate_image,
      try_except, generate_image_body. by rewrite Hc.
  - intros Hc request Hfew. unfold Routers.generate_with_reference.
    apply Nat.ltb_ge in Hfew. rewrite Hfew.
    unfold generate_with_reference_urls, try_except,
      generate_with_reference_urls_body. by rewrite Hc.
  - intros Hc request Hu. unfold Routers.generate_with_reference.
    rewrite Hu. cbn [length Nat.ltb Nat.leb].
    unfold generate_with_reference_urls, try_except,
      generate_with_reference_urls_body. by rewrite Hc, Hu.
Qed.

Lemma routes_refuse_without_key_or_references_witness :
  client world_without_key = false /\
  client Examples.world = true /\
  ReferenceGenerationRequest.image_urls no_references = [] /\
  Routers.generate_image world_without_key Examples.a_cat Examples.fresh
    = (Routers.HTTPException 400 "OpenAI API key not configured",
       Examples.fresh) /\
  Routers.generate_with_reference world_without_key
    (Examples.two_references 1 true) Examples.fresh
    = (Routers.HTTPException 400 "OpenAI API key not configured",
       Examples.fresh) /\
  Routers.generate_with_reference Examples.world no_references Examples.fresh
    = (Routers.HTTPException 400 "No reference images provided",
       Examples.fresh).
Proof.
  assert (H1 : client world_without_key = false) by reflexivity.
  assert (H2 : client Examples.world = true) by reflexivity.
  assert (H3 : ReferenceGenerationRequest.image_urls no_references = [])
    by reflexivity.
  pose proof (routes_refuse_without_key_or_references world_without_key
                Examples.fresh) as (Hgen & Href & _).
  pose proof (routes_refuse_without_key_or_references Examples.world
                Examples.fresh) as (_ & _ & Hnone).
  split; [exact H1|]. split; [exact H2|]. split; [exact H3|].
  split; [exact (Hgen H1 Examples.a_cat)|].
  split; [|exact (Hnone H2 no_references H3)].
  apply (Href H1). simpl. lia.
Defined.

End RouterFacts.

(** * The temporary file of the reference-guided call *)

Module DiskFacts.

Import Models Service ServiceFacts Disk.

(** On a disk without faults the file operations are those of the gateway
    as embedded above. *)
Lemma unified_images_no_faults (w : World) (request : ReferenceGenerationRequest.t) :
  forall (data : list (nat * ImageData)) (s : Sys),
    unified_images_on no_faults w request data s = unified_images w request data s.
Proof.
  induction data as [|[idx item] data IH]; intros s; [done|].
  cbn [unified_images_on unified_images].
  change (save_and_append_on no_faults w) with (save_and_append w).
  assert (Happend : forall info s0,
    (do image_info <-
       save_and_append w (ReferenceGenerationRequest.save_to_disk request)
         "reference_" (ReferenceGenerationRequest.response_format request) idx info;
     do images <- unified_images_on no_faults w request data;
     ret (image_info :: images)) s0
    = (do image_info <-
         save_and_append w (ReferenceGenerationRequest.save_to_disk request)
           "reference_" (ReferenceGenerationRequest.response_format request) idx info;
       do images <- unified_images w request data;
       ret (image_info :: images)) s0).
  { intros info s0. apply bind_ext. intros image_info s1.
    apply bind_ext_l, IH. }
  destruct (truthy (url item)).
  - apply bind_ext. intros content s1. apply Happend.
  - destruct (truthy (b64_json item)); [apply Happend | apply IH].
Qed.

(** The embedding with faults agrees with the embedding of the gateway when
    the disk has none. *)
Lemma no_faults_agree (w : World) (request : ReferenceGenerationRequest.t)
    (sys : Sys) :
  generate_with_reference_urls_on no_faults w request sys
  = generate_with_reference_urls w request sys.
Proof.
  unfold generate_with_reference_urls_on, generate_with_reference_urls,
    try_except.
  assert (Hbody : generate_with_reference_urls_body_on no_faults w request sys
                  = generate_with_reference_urls_body w request sys);
    [|by rewrite Hbody].
  unfold generate_with_reference_urls_body_on, generate_with_reference_urls_body.
  destruct (client w); [|done]. cbn [negb].
  destruct (ReferenceGenerationRequest.image_urls request) as [|u rest]; [done|].
  apply bind_ext. intros downloaded s1.
  apply bind_ext. intros stamp s2.
  change (write_file_on no_faults) with write_file.
  apply bind_ext. intros written s3.
  change (read_file_on no_faults) with read_file.
  change (remove_quietly_on no_faults) with remove_quietly.
  apply bind_ext. intros response s4.
  apply bind_ext_l, unified_images_no_faults.
Qed.

(** Saving a result touches one file, named after the prefix, whether the
    write succeeds or not. *)
Lemma save_and_append_on_files (d : Faults) (w : World) (save : bool)
    (prefix : string) (format : ImageFormat) (idx : nat)
    (image_info : ImageInfo.t) (s : Sys) (p : string) :
  (forall name, p <> path_join GENERATED_IMAGES_DIR (prefix +:+ name)) ->
  files (snd (save_and_append_on d w save prefix format idx image_info s)) !! p
    = files s !! p.
Proof.
  intros Hp.
  assert (Hname : p <> path_join GENERATED_IMAGES_DIR
                         ((prefix +:+ strftime_now w (clock s) +:+ "_" +:+ pretty idx)
                          +:+ "." +:+ format_value format)).
  { intros E. apply (Hp (strftime_now w (clock s) +:+ "_" +:+ pretty idx
                         +:+ "." +:+ format_value format)).
    rewrite E. f_equal. by rewrite !append_assoc. }
  unfold save_and_append_on. destruct save; [|done].
  unfold bind at 1. unfold now at 1.
  unfold bind at 1. unfold _save_image_to_disk_on.
  unfold bind at 1. unfold lift.
  destruct (match ImageInfo.b64_json image_info with
            | Some text => b64decode w text
            | None => _
            end) as [image_data|e]; [|done].
  unfold bind, write_file_on, ret.
  destruct (open_for_writing d _); [done|].
  destruct (writing d _) as [[e written]|]; cbn [snd files];
    by rewrite lookup_insert_ne.
Qed.

Lemma unified_images_on_files (d : Faults) (w : World)
    (request : ReferenceGenerationRequest.t) (p : string) :
  (forall name, p <> path_join GENERATED_IMAGES_DIR ("reference_" +:+ name)) ->
  forall (data : list (nat * ImageData)) (s : Sys),
    files (snd (unified_images_on d w request data s)) !! p = files s !! p.
Proof.
  intros Hp. induction data as [|[idx item] data IH]; intros s; [done|].
  assert (Happend : forall b64_data,
    files (snd ((do image_info <-
                   save_and_append_on d w
                     (ReferenceGenerationRequest.save_to_disk request)
                     "reference_" (ReferenceGenerationRequest.response_format request) idx
                     {| ImageInfo.index := idx;
                        ImageInfo.b64_json := Some b64_data;
                        ImageInfo.revised_prompt := None;
                        ImageInfo.filename := None;
                        ImageInfo.file_path := None |};
                 do images <- unified_images_on d w request data;
                 ret (image_info :: images)) s)) !! p = files s !! p).
  { intros b64_data. unfold bind at 1.
    pose proof (save_and_append_on_files d w
                  (ReferenceGenerationRequest.save_to_disk request) "reference_"
                  (ReferenceGenerationRequest.response_format request) idx
                  {| ImageInfo.index := idx;
                     ImageInfo.b64_json := Some b64_data;
                     ImageInfo.revised_prompt := None;
                     ImageInfo.filename := None;
                     ImageInfo.file_path := None |} s p Hp) as Hsave.
    destruct (save_and_append_on _ _ _ _ _ _ _ s) as [[image_info|e] s1];
      cbn [snd] in *; [|done].
    unfold bind. specialize (IH s1).
    destruct (unified_images_on d w request data s1) as [[images|e] s2];
      cbn [snd] in *; unfold ret; cbn [snd]; congruence. }
  cbn [unified_images_on].
  destruct (truthy (url item)).
  - unfold bind at 1. unfold lift at 1.
    destruct (get w (default "" (url item))) as [content|e]; [|done].
    apply Happend.
  - destruct (truthy (b64_json item)); [apply Happend | apply IH].
Qed.

(** The call once the temporary file has been written: what is submitted,
    and the disk as the [finally] block leaves it. *)
Lemma reference_body_on_written (d : Faults) (w : World)
    (request : ReferenceGenerationRequest.t)
    (sys : Sys) (u : string) (rest : list string) (raw processed : bytes) :
  client w = true ->
  ReferenceGenerationRequest.image_urls request = u :: rest ->
  _download_image_from_url w u = Ok (raw, processed) ->
  let path := temp_path (strftime_now w (clock sys)) in
  open_for_writing d path = None ->
  writing d path = None ->
  let after :=
    remove_quietly_on d path
      {| files := <[path := processed]> (files sys); clock := S (clock sys) |} in
  let submitted :=
    match open_for_reading d path with
    | Some e => Raise e
    | None =>
        images_edit w
          (model_value (ReferenceGenerationRequest.model request))
          processed
          (_create_enhanced_prompt (ReferenceGenerationRequest.prompt request)
             (length (ReferenceGenerationRequest.image_urls request)))
          (size_value (ReferenceGenerationRequest.size request))
          (ReferenceGenerationRequest.n request)
    end in
  generate_with_reference_urls_on d w request sys =
    match submitted with
    | Raise e => (failure e "Failed to generate image with references", after)
    | Ok response =>
        (fst (try_except
                (do images <- unified_images_on d w request (enumerate response);
                 ret {| success := true;
                        message := "Successfully generated " +:+
                                   pretty (length images) +:+
                                   " image(s) using " +:+
                                   pretty (length (ReferenceGenerationRequest.image_urls request)) +:+
                                   " reference(s)";
                        images := Some images;
                        request_params := Some
                          [("model", PyStr (model_value (ReferenceGenerationRequest.model request)));
                           ("original_prompt", PyStr (ReferenceGenerationRequest.prompt request));
                           ("enhanced_prompt",
                            PyStr (_create_enhanced_prompt
                                     (ReferenceGenerationRequest.prompt request)
                                     (length (ReferenceGenerationRequest.image_urls request))));
                           ("size", PyStr (size_value (ReferenceGenerationRequest.size request)));
                           ("n", PyInt (ReferenceGenerationRequest.n request));
                           ("reference_count",
                            PyInt (Z.of_nat (length (ReferenceGenerationRequest.image_urls request))));
                           ("reference_urls", PyList (ReferenceGenerationRequest.image_urls request));
                           ("note", PyStr "Quality parameter not supported by edit endpoint")];
                        error := None |})
                (fun e => failure e "Failed to generate image with references")
                after),
         snd (unified_images_on d w request (enumerate response) after))
    end.
Proof.
  intros Hc Hu Hd path Hopen Hwrite after submitted.
  unfold generate_with_reference_urls_on, try_except,
    generate_with_reference_urls_body_on.
  rewrite Hc, Hu. cbn [negb]. rewrite <- Hu. rewrite Hd.
  unfold bind at 1. unfold lift at 1. cbn [snd].
  unfold bind at 1. unfold now at 1. fold path.
  unfold bind at 1. unfold write_file_on at 1. rewrite Hopen, Hwrite.
  cbn [files clock].
  unfold bind at 1. unfold try_finally at 1.
  unfold bind at 1. unfold read_file_on at 1. fold after. subst submitted.
  destruct (open_for_reading d path) as [e|]; [done|].
  unfold read_file. cbn [files]. rewrite lookup_insert_eq. unfold lift at 1.
  fold after.
  destruct (images_edit w _ processed _ _ _) as [response|e]; [|done].
  unfold bind.
  by destruct (unified_images_on d w request (enumerate response) after)
    as [[images|e] sys'].
Qed.

Example path_join_relative :
  path_join GENERATED_IMAGES_DIR "temp_ref_20240101_000000.png"
  = "generated-images/temp_ref_20240101_000000.png".
Proof. reflexivity. Qed.

Example path_join_absolute :
  path_join GENERATED_IMAGES_DIR "/tmp/a.png" = "/tmp/a.png".
Proof. reflexivity. Qed.

(** The write of the temporary file stands before the [try]: when it raises
    after the file has been created, the call fails with the text of the
    exception and the file stays as the write left it. *)
Lemma failed_write_leaves_file (d : Faults) (w : World)
    (request : ReferenceGenerationRequest.t)
    (sys : Sys) (u : string) (rest : list string) (raw processed written : bytes)
    (e : string) :
  client w = true ->
  ReferenceGenerationRequest.image_urls request = u :: rest ->
  _download_image_from_url w u = Ok (raw, processed) ->
  let path := temp_path (strftime_now w (clock sys)) in
  open_for_writing d path = None ->
  writing d path = Some (e, written) ->
  generate_with_reference_urls_on d w request sys
  = (failure e "Failed to generate image with references",
     {| files := <[path := written]> (files sys); clock := S (clock sys) |}).
Proof.
  intros Hc Hu Hd path Hopen Hwrite.
  unfold generate_with_reference_urls_on, try_except,
    generate_with_reference_urls_body_on.
  rewrite Hc, Hu. cbn [negb]. rewrite <- Hu. rewrite Hd.
  unfold bind at 1. unfold lift at 1. cbn [snd].
  unfold bind at 1. unfold now at 1. fold path.
  unfold bind at 1. unfold write_file_on at 1. by rewrite Hopen, Hwrite.
Qed.

(** Whatever the outcome, the temporary file is at the end as the [finally]
    block left it. *)
Lemma reference_on_temp_file (d : Faults) (w : World)
    (request : ReferenceGenerationRequest.t)
    (sys : Sys) (u : string) (rest : list string) (raw processed : bytes) :
  client w = true ->
  ReferenceGenerationRequest.image_urls request = u :: rest ->
  _download_image_from_url w u = Ok (raw, processed) ->
  let path := temp_path (strftime_now w (clock sys)) in
  open_for_writing d path = None ->
  writing d path = None ->
  files (snd (generate_with_reference_urls_on d w request sys)) !! path
  = files (remove_quietly_on d path
             {| files := <[path := processed]> (files sys);
                clock := S (clock sys) |}) !! path.
Proof.
  intros Hc Hu Hd path Hopen Hwrite.
  rewrite (reference_body_on_written d w request sys u rest raw processed
             Hc Hu Hd Hopen Hwrite).
  cbv zeta. fold path.
  destruct (open_for_reading d path); [done|].
  destruct (images_edit w _ processed _ _ _); [|done].
  cbn [snd]. apply unified_images_on_files, temp_path_not_saved.
Qed.

(** C9, as the code has it. In a reference-guided call that has written the
    processed reference image to its temporary file, the removal of that
    file is attempted on every exit path, the one where the edit submission
    raises included: when [os.remove] succeeds the file is gone when the call
    returns, whatever the outcome; when [os.remove] fails, the failure is
    passed over and the file stays, with the processed image in it. When the
    submission raises, the call returns the failure outcome with the text of
    the exception. *)
Theorem C9_temp_file_removed_unless_removal_fails (d : Faults) (w : World)
    (request : ReferenceGenerationRequest.t) (sys : Sys)
    (u : string) (rest : list string) (raw processed : bytes) :
  client w = true ->
  ReferenceGenerationRequest.image_urls request = u :: rest ->
  _download_image_from_url w u = Ok (raw, processed) ->
  let path := temp_path (strftime_now w (clock sys)) in
  open_for_writing d path = None ->
  writing d path = None ->
  (removing d path = None ->
   files (snd (generate_with_reference_urls_on d w request sys)) !! path = None) /\
  (forall e,
      removing d path = Some e ->
      files (snd (generate_with_reference_urls_on d w request sys)) !! path
        = Some processed) /\
  (forall e,
      open_for_reading d path = None ->
      images_edit w
        (model_value (ReferenceGenerationRequest.model request))
        processed
        (_create_enhanced_prompt (ReferenceGenerationRequest.prompt request)
           (length (ReferenceGenerationRequest.image_urls request)))
        (size_value (ReferenceGenerationRequest.size request))
        (ReferenceGenerationRequest.n request) = Raise e ->
      fst (generate_with_reference_urls_on d w request sys)
        = failure e "Failed to generate image with references").
Proof.
  intros Hc Hu Hd path Hopen Hwrite.
  pose proof (reference_on_temp_file d w request sys u rest raw processed
                Hc Hu Hd Hopen Hwrite) as Hend.
  cbv zeta in Hend. fold path in Hend. split; [|split].
  - intros Hremove. rewrite Hend. unfold remove_quietly_on. rewrite Hremove.
    cbn [files]. apply lookup_delete_eq.
  - intros e Hremove. rewrite Hend. unfold remove_quietly_on. rewrite Hremove.
    cbn [files]. apply lookup_insert_eq.
  - intros e Hread Hraise.
    rewrite (reference_body_on_written d w request sys u rest raw processed
               Hc Hu Hd Hopen Hwrite).
    cbv zeta. fold path. by rewrite Hread, Hraise.
Qed.

(** The provider's edit endpoint is down and the disk has no faults. *)
Lemma C9_temp_file_removed_unless_removal_fails_witness :
  client Examples.world_edit_down = true /\
  ReferenceGenerationRequest.image_urls (Examples.two_references 1 true)
    = [Examples.first_url; Examples.second_url] /\
  _download_image_from_url Examples.world_edit_down Examples.first_url
    = Ok ([Byte.x01], [Byte.x03]) /\
  files (snd (generate_with_reference_urls_on no_faults Examples.world_edit_down
                (Examples.two_references 1 true) Examples.fresh))
    !! temp_path (strftime_now Examples.world_edit_down (clock Examples.fresh))
    = None /\
  fst (generate_with_reference_urls_on no_faults Examples.world_edit_down
         (Examples.two_references 1 true) Examples.fresh)
    = failure "Connection error." "Failed to generate image with references".
Proof.
  assert (H1 : client Examples.world_edit_down = true) by reflexivity.
  assert (H2 : ReferenceGenerationRequest.image_urls (Examples.two_references 1 true)
               = [Examples.first_url; Examples.second_url]) by reflexivity.
  assert (H3 : _download_image_from_url Examples.world_edit_down Examples.first_url
               = Ok ([Byte.x01], [Byte.x03])) by reflexivity.
  pose proof (C9_temp_file_removed_unless_removal_fails no_faults
                Examples.world_edit_down (Examples.two_references 1 true)
                Examples.fresh Examples.first_url [Examples.second_url]
                [Byte.x01] [Byte.x03] H1 H2 H3 eq_refl eq_refl)
    as (Hgone & _ & Hraise).
  split; [exact H1|]. split; [exact H2|]. split; [exact H3|].
  split; [exact (Hgone eq_refl)|].
  exact (Hraise "Connection error." eq_refl eq_refl).
Defined.

(** The provider's edit endpoint is down and [os.remove] is refused: the
    call has written its temporary file, the submission raises, and the file
    is still there when the call returns. *)
Lemma C9_counterexample :
  let path :=
    temp_path (strftime_now Examples.world_edit_down (clock Examples.fresh)) in
  files Examples.fresh !! path = None /\
  fst (generate_with_reference_urls_on removal_denied Examples.world_edit_down
         (Examples.two_references 1 true) Examples.fresh)
    = failure "Connection error." "Failed to generate image with references" /\
  files (snd (generate_with_reference_urls_on removal_denied
                Examples.world_edit_down (Examples.two_references 1 true)
                Examples.fresh)) !! path = Some [Byte.x03] /\
  files (snd (generate_with_reference_urls_on removal_denied
                Examples.world_edit_down (Examples.two_references 1 true)
                Examples.fresh)) !! path <> None.
Proof.
  intros path. subst path.
  assert (E : files (snd (generate_with_reference_urls_on removal_denied
                Examples.world_edit_down (Examples.two_references 1 true)
                Examples.fresh))
              !! temp_path (strftime_now Examples.world_edit_down
                              (clock Examples.fresh)) = Some [Byte.x03])
    by (vm_compute; reflexivity).
  split; [vm_compute; reflexivity|]. split; [vm_compute; reflexivity|].
  split; [exact E|]. intros H.
  pose proof (eq_trans (eq_sym E) H) as F. discriminate F.
Qed.

End DiskFacts.
